(** * Ellipse editor: a shallow embedding of [script.js]

    The script keeps one ellipse under a shear, a rotation and a translation,
    and edits it with pointer drags on the eight handles of its bounding box.

    Numbers.  Every JavaScript number of the script is read as a real number:
    [+], [-], [*] are the field operations, [Math.cos], [Math.sin], [Math.PI],
    [Math.abs] and [Math.max] are [cos], [sin], [PI], [Rabs] and [Rmax].
    Rounding, overflow and NaN are outside this reading.  The two places
    where the script relies on a non-finite value are written out:
    the [Infinity] sentinels of the bounding-box scan ([lowerTo], [raiseTo])
    and the divisions by a squared radius in [isPointInEllipse].

    Rendering ([drawAll] and the [draw...] functions) and [console.log] only
    touch the canvas and the console.  Where a handler calls [drawAll] it is
    the last thing it does, so it is left out of the handlers below. *)

From Stdlib Require Import String Reals Lra Lia List ZArith Bool.
Import ListNotations.
Open Scope R_scope.

(** ** Comparisons as JavaScript booleans *)

Definition Rltb (a b : R) : bool := if Rlt_dec a b then true else false.
Definition Rleb (a b : R) : bool := if Rle_dec a b then true else false.
Definition Rgtb (a b : R) : bool := Rltb b a.
Definition Rgeb (a b : R) : bool := Rleb b a.
Definition Reqb (a b : R) : bool := if Req_dec_T a b then true else false.

(** [s.includes(sub)] *)
Definition includes (s sub : string) : bool :=
  match String.index 0 sub s with
  | Some _ => true
  | None => false
  end.

(** ** Data *)

Record Point := mkPoint { pt_x : R; pt_y : R }.

Record Box := mkBox { box_x : R; box_y : R; width : R; height : R }.

(** [{ x, y, role }], an element of [getHandlesFromBox]. *)
Record Handle := mkHandle { h_x : R; h_y : R; role : string }.

(** The object stored in [activeAnchor]: [{ x, y, role }] when it comes from
    [getOppositeCornerScreenCoord] at a corner, [{ x, y }] (no [role], so
    [a_role = None]) otherwise. *)
Record Anchor := mkAnchor { a_x : R; a_y : R; a_role : option string }.

Record Ellipse := mkEllipse {
  centerX : R; centerY : R;
  radiusX : R; radiusY : R;
  rotation : R;
  shearX : R; shearY : R;
  activeHandle : option Handle
}.

(** ** Utility functions *)

Definition rotatePoint (x y angle : R) : R * R :=
  let cosA := cos angle in
  let sinA := sin angle in
  (x * cosA - y * sinA, x * sinA + y * cosA).

Definition shearPoint (x y shearX shearY : R) : R * R :=
  (x + shearX * y, y + shearY * x).

(** Lines 73-77 of [getEllipsePoints]: shear, then rotate. *)
Definition transformPoint (x y shearX shearY rotation : R) : R * R :=
  let '(x, y) := shearPoint x y shearX shearY in
  rotatePoint x y rotation.

(** The body of the loop of [getEllipsePoints] at index [i]. *)
Definition samplePoint (e : Ellipse) (steps i : nat) : Point :=
  let t := (2 * PI * INR i) / INR steps in
  let x := radiusX e * cos t in
  let y := radiusY e * sin t in
  let '(x, y) := shearPoint x y (shearX e) (shearY e) in
  let '(x, y) := rotatePoint x y (rotation e) in
  let x := x + centerX e in
  let y := y + centerY e in
  mkPoint x y.

(** [for (let i = 0; i <= steps; i++)]: the indices [0 .. steps]. *)
Definition getEllipsePoints (e : Ellipse) (steps : nat) : list Point :=
  map (samplePoint e steps) (seq 0 (S steps)).

(** An accumulator of the min/max scan.  [None] is the sentinel the scan
    starts from: [Infinity] for a minimum, [-Infinity] for a maximum. *)
Definition lowerTo (minv : option R) (v : R) : option R :=
  match minv with
  | None => Some v                                   (* v < Infinity *)
  | Some m => if Rltb v m then Some v else Some m
  end.

Definition raiseTo (maxv : option R) (v : R) : option R :=
  match maxv with
  | None => Some v                                   (* v > -Infinity *)
  | Some m => if Rgtb v m then Some v else Some m
  end.

Record Extent := mkExtent {
  minX : option R; maxX : option R;
  minY : option R; maxY : option R
}.

(** The callback of [pts.forEach]. *)
Definition scanPoint (a : Extent) (pt : Point) : Extent :=
  mkExtent (lowerTo (minX a) (pt_x pt)) (raiseTo (maxX a) (pt_x pt))
           (lowerTo (minY a) (pt_y pt)) (raiseTo (maxY a) (pt_y pt)).

Definition scanPoints (pts : list Point) : Extent :=
  fold_left scanPoint pts (mkExtent None None None None).

(** The object returned by [getEllipseBoundingBox], when the scan has seen a
    point.  With no point the script returns infinite fields, which are not
    real numbers: [None]. *)
Definition boxOfExtent (a : Extent) : option Box :=
  match minX a, maxX a, minY a, maxY a with
  | Some minX, Some maxX, Some minY, Some maxY =>
      Some (mkBox minX minY (maxX - minX) (maxY - minY))
  | _, _, _, _ => None
  end.

(** [getEllipsePoints (e, 60)] has 61 points, so the second branch is never
    taken (it disappears by computation, see [getEllipseBoundingBox_scan]). *)
Definition getEllipseBoundingBox (e : Ellipse) : Box :=
  let pts := getEllipsePoints e 60 in
  match boxOfExtent (scanPoints pts) with
  | Some box => box
  | None => mkBox 0 0 0 0
  end.

Definition isPointInBox (mx my : R) (box : Box) : bool :=
  Rgeb mx (box_x box) &&
  Rleb mx (box_x box + width box) &&
  Rgeb my (box_y box) &&
  Rleb my (box_y box + height box).

(** Lines 135-153 of [isPointInEllipse]: undo the rotation, then the shear.
    [None] is the early [return false] of the degenerate shear. *)
Definition inverseTransformPoint (lx ly shearX shearY rotation : R)
  : option (R * R) :=
  let '(lx, ly) := rotatePoint lx ly (- rotation) in
  let det := 1 - shearX * shearY in
  if Rltb (Rabs det) 1e-10 then None
  else
    let inv00 := 1 / det in
    let inv01 := - shearX / det in
    let inv10 := - shearY / det in
    let inv11 := 1 / det in
    let lxTemp := lx * inv00 + ly * inv01 in
    let lyTemp := lx * inv10 + ly * inv11 in
    Some (lxTemp, lyTemp).

(** The last two lines divide by the squared radii.  When one of them is
    zero the quotient is [Infinity] or [NaN] in JavaScript, [val] is
    [Infinity] or [NaN], and [val <= 1] is false. *)
Definition isPointInEllipse (mx my : R) (e : Ellipse) : bool :=
  let lx := mx - centerX e in
  let ly := my - centerY e in
  match inverseTransformPoint lx ly (shearX e) (shearY e) (rotation e) with
  | None => false
  | Some (lx, ly) =>
      if Reqb (radiusX e * radiusX e) 0 || Reqb (radiusY e * radiusY e) 0
      then false
      else
        let val := (lx * lx) / (radiusX e * radiusX e)
                   + (ly * ly) / (radiusY e * radiusY e) in
        Rleb val 1
  end.

Definition getHandlesFromBox (box : Box) : list Handle :=
  let x := box_x box in
  let y := box_y box in
  let width := width box in
  let height := height box in
  let midX := x + width / 2 in
  let midY := y + height / 2 in
  [ mkHandle x y "top-left";
    mkHandle (x + width) y "top-right";
    mkHandle x (y + height) "bottom-left";
    mkHandle (x + width) (y + height) "bottom-right";
    mkHandle midX y "top-middle";
    mkHandle midX (y + height) "bottom-middle";
    mkHandle x midY "left-middle";
    mkHandle (x + width) midY "right-middle" ].

Definition findHandleHit (handles : list Handle) (mx my radius : R)
  : option Handle :=
  find (fun handle =>
          let dx := mx - h_x handle in
          let dy := my - h_y handle in
          Rleb (dx * dx + dy * dy) (radius * radius))
       handles.

(** [cornerType] is [activeAnchor.role] at the only call, which may be
    [undefined]: then no [case] matches and [dx], [dy] stay 0. *)
Definition computeEllipseCenterForBoxTopLeft
  (radiusX radiusY shearX shearY rotation : R)
  (cornerType : option string) (cornerPoint : Anchor) : R * R :=
  let tempEllipse := mkEllipse 0 0 radiusX radiusY rotation shearX shearY None in
  let box := getEllipseBoundingBox tempEllipse in
  match cornerType with
  | None => (0, 0)
  | Some cornerType =>
      if String.eqb cornerType "top-left" then
        (a_x cornerPoint - box_x box, a_y cornerPoint - box_y box)
      else if String.eqb cornerType "top-right" then
        (a_x cornerPoint - (box_x box + width box),
         a_y cornerPoint - box_y box)
      else if String.eqb cornerType "bottom-right" then
        (a_x cornerPoint - (box_x box + width box),
         a_y cornerPoint - (box_y box + height box))
      else if String.eqb cornerType "bottom-left" then
        (a_x cornerPoint - box_x box,
         a_y cornerPoint - (box_y box + height box))
      else (0, 0)
  end.

Definition getOppositeCornerScreenCoord (box : Box) (handleRole : string)
  : Anchor :=
  let x := box_x box in
  let y := box_y box in
  let width := width box in
  let height := height box in
  if String.eqb handleRole "top-left" then
    mkAnchor (x + width) (y + height) (Some "bottom-right"%string)
  else if String.eqb handleRole "top-right" then
    mkAnchor x (y + height) (Some "bottom-left"%string)
  else if String.eqb handleRole "bottom-left" then
    mkAnchor (x + width) y (Some "top-right"%string)
  else if String.eqb handleRole "bottom-right" then
    mkAnchor x y (Some "top-left"%string)
  else
    mkAnchor (x + width / 2) (y + height / 2) None.

(** ** The application state: the script's top-level [let] variables *)

(** [editMode] only ever holds ['resize-shear'] or ['rotate']. *)
Inductive EditMode := ResizeShear | Rotate.

Record State := mkState {
  isDrawing : bool;
  ellipseData : Ellipse;
  hasEllipse : bool;
  showBoundingBox : bool;
  editMode : EditMode;
  isDragging : bool;
  dragHandle : option Handle;
  lastMousePos : Point;
  activeAnchor : option Anchor
}.

Definition initialState : State :=
  mkState false (mkEllipse 0 0 0 0 0 0 0 None) false false ResizeShear
          false None (mkPoint 0 0) None.

(** Assignments to one variable or one field. *)
Definition set_center (cx cy : R) (e : Ellipse) : Ellipse :=
  mkEllipse cx cy (radiusX e) (radiusY e) (rotation e) (shearX e) (shearY e)
            (activeHandle e).
Definition set_radii (rx ry : R) (e : Ellipse) : Ellipse :=
  mkEllipse (centerX e) (centerY e) rx ry (rotation e) (shearX e) (shearY e)
            (activeHandle e).
Definition set_rotation (r : R) (e : Ellipse) : Ellipse :=
  mkEllipse (centerX e) (centerY e) (radiusX e) (radiusY e) r
            (shearX e) (shearY e) (activeHandle e).
Definition set_shearX (v : R) (e : Ellipse) : Ellipse :=
  mkEllipse (centerX e) (centerY e) (radiusX e) (radiusY e) (rotation e)
            v (shearY e) (activeHandle e).
Definition set_shearY (v : R) (e : Ellipse) : Ellipse :=
  mkEllipse (centerX e) (centerY e) (radiusX e) (radiusY e) (rotation e)
            (shearX e) v (activeHandle e).
Definition set_activeHandle (h : option Handle) (e : Ellipse) : Ellipse :=
  mkEllipse (centerX e) (centerY e) (radiusX e) (radiusY e) (rotation e)
            (shearX e) (shearY e) h.

Definition set_isDrawing (b : bool) (s : State) : State :=
  mkState b (ellipseData s) (hasEllipse s) (showBoundingBox s) (editMode s)
          (isDragging s) (dragHandle s) (lastMousePos s) (activeAnchor s).
Definition set_ellipseData (e : Ellipse) (s : State) : State :=
  mkState (isDrawing s) e (hasEllipse s) (showBoundingBox s) (editMode s)
          (isDragging s) (dragHandle s) (lastMousePos s) (activeAnchor s).
Definition set_hasEllipse (b : bool) (s : State) : State :=
  mkState (isDrawing s) (ellipseData s) b (showBoundingBox s) (editMode s)
          (isDragging s) (dragHandle s) (lastMousePos s) (activeAnchor s).
Definition set_showBoundingBox (b : bool) (s : State) : State :=
  mkState (isDrawing s) (ellipseData s) (hasEllipse s) b (editMode s)
          (isDragging s) (dragHandle s) (lastMousePos s) (activeAnchor s).
Definition set_editMode (m : EditMode) (s : State) : State :=
  mkState (isDrawing s) (ellipseData s) (hasEllipse s) (showBoundingBox s) m
          (isDragging s) (dragHandle s) (lastMousePos s) (activeAnchor s).
Definition set_isDragging (b : bool) (s : State) : State :=
  mkState (isDrawing s) (ellipseData s) (hasEllipse s) (showBoundingBox s)
          (editMode s) b (dragHandle s) (lastMousePos s) (activeAnchor s).
Definition set_dragHandle (h : option Handle) (s : State) : State :=
  mkState (isDrawing s) (ellipseData s) (hasEllipse s) (showBoundingBox s)
          (editMode s) (isDragging s) h (lastMousePos s) (activeAnchor s).
Definition set_lastMousePos (p : Point) (s : State) : State :=
  mkState (isDrawing s) (ellipseData s) (hasEllipse s) (showBoundingBox s)
          (editMode s) (isDragging s) (dragHandle s) p (activeAnchor s).
Definition set_activeAnchor (a : option Anchor) (s : State) : State :=
  mkState (isDrawing s) (ellipseData s) (hasEllipse s) (showBoundingBox s)
          (editMode s) (isDragging s) (dragHandle s) (lastMousePos s) a.

(** ** The event handlers *)

Definition onMouseDown (s : State) (mx my : R) (button : Z) : State :=
  let s := set_lastMousePos (mkPoint mx my) s in
  if (button =? 2)%Z then s
  else if negb (hasEllipse s) then
    if negb (isDrawing s) then
      let e := set_radii 0 0 (set_center mx my (ellipseData s)) in
      set_isDrawing true (set_ellipseData e s)
    else
      let e := ellipseData s in
      let e := if Reqb (radiusX e) 0 && Reqb (radiusY e) 0
               then set_radii 10 10 e else e in
      set_showBoundingBox true
        (set_hasEllipse true (set_isDrawing false (set_ellipseData e s)))
  else if showBoundingBox s then
    let box := getEllipseBoundingBox (ellipseData s) in
    let handles := getHandlesFromBox box in
    match findHandleHit handles mx my 6 with
    | Some hitHandle =>
        let e := set_activeHandle (Some hitHandle) (ellipseData s) in
        let anchor :=
          match editMode s with
          | Rotate => mkAnchor (centerX e) (centerY e) None
          | ResizeShear =>
              if includes (role hitHandle) "middle"
              then mkAnchor (centerX e) (centerY e) None
              else getOppositeCornerScreenCoord box (role hitHandle)
          end in
        set_activeAnchor (Some anchor)
          (set_ellipseData e
             (set_dragHandle (Some hitHandle) (set_isDragging true s)))
    | None =>
        if isPointInBox mx my box then
          set_editMode
            (match editMode s with ResizeShear => Rotate | Rotate => ResizeShear end)
            s
        else s
    end
  else
    if isPointInEllipse mx my (ellipseData s)
    then set_editMode ResizeShear (set_showBoundingBox true s)
    else s.

(** How a handler ends: normally, or by the [TypeError] of reading a
    property of [null].  The variables keep what was assigned before. *)
Inductive Completion := Normal | Throw.

Definition onMouseMove (s : State) (mx my : R) : Completion * State :=
  if negb (hasEllipse s) && isDrawing s then
    let e := ellipseData s in
    (Normal,
     set_ellipseData
       (set_radii (Rabs (mx - centerX e)) (Rabs (my - centerY e)) e) s)
  else
    (* [boxBefore] is computed here and never read *)
    if hasEllipse s && isDragging s then
      match dragHandle s with
      | None => (Normal, s)
      | Some dragHandle =>
          let dx := mx - pt_x (lastMousePos s) in
          let dy := my - pt_y (lastMousePos s) in
          let e := ellipseData s in
          match editMode s with
          | ResizeShear =>
              if includes (role dragHandle) "middle" then
                let e :=
                  if String.eqb (role dragHandle) "top-middle"
                     || String.eqb (role dragHandle) "bottom-middle"
                  then set_shearX (shearX e + dx * 0.01) e
                  else set_shearY (shearY e + dy * 0.01) e in
                (Normal, set_lastMousePos (mkPoint mx my) (set_ellipseData e s))
              else
                let signX := if includes (role dragHandle) "left" then -1 else 1 in
                let signY := if includes (role dragHandle) "top" then -1 else 1 in
                let e := set_radii (radiusX e + signX * dx)
                                   (radiusY e + signY * dy) e in
                let e := set_radii (Rmax 5 (radiusX e)) (Rmax 5 (radiusY e)) e in
                match activeAnchor s with
                | None => (Throw, set_ellipseData e s)   (* activeAnchor.role *)
                | Some anchor =>
                    let center :=
                      computeEllipseCenterForBoxTopLeft
                        (radiusX e) (radiusY e) (shearX e) (shearY e)
                        (rotation e) (a_role anchor) anchor in
                    let e := set_center (fst center) (snd center) e in
                    (Normal,
                     set_lastMousePos (mkPoint mx my) (set_ellipseData e s))
                end
          | Rotate =>
              let rotationSpeed := 0.01 in
              let e := set_rotation (rotation e + dx * rotationSpeed) e in
              (Normal, set_lastMousePos (mkPoint mx my) (set_ellipseData e s))
          end
      end
    else (Normal, s).

Definition onMouseUp (s : State) : State :=
  set_activeAnchor None (set_dragHandle None (set_isDragging false s)).

Definition onContextMenu (s : State) : State :=
  set_showBoundingBox false s.

(** ** Drawing *)

(** A call made by [drawAll]: [ctx.clearRect] over the canvas, or one of the
    drawing functions with its argument ([drawHandles] also reads
    [editMode]). *)
Inductive DrawCall :=
| clearRect
| drawEllipse (ellipseData : Ellipse)
| drawBoundingBox (box : Box)
| drawHandles (handles : list Handle) (editMode : EditMode)
| drawAnchorCross (x y size : R).

(** The calls [drawAll] makes, in order, and how it ends: reading
    [ellipseData.activeHandle.role] throws when [activeHandle] is [null]. *)
Definition drawAll (s : State) : Completion * list DrawCall :=
  let calls := [clearRect] in
  if negb (hasEllipse s) && isDrawing s then
    (Normal, calls ++ [drawEllipse (ellipseData s)])
  else
    let calls :=
      if hasEllipse s then calls ++ [drawEllipse (ellipseData s)] else calls in
    let calls :=
      if hasEllipse s && showBoundingBox s then
        let box := getEllipseBoundingBox (ellipseData s) in
        let calls := calls ++ [drawBoundingBox box] in
        let handles := getHandlesFromBox box in
        if negb (isDragging s)
        then calls ++ [drawHandles handles (editMode s)]
        else calls
      else calls in
    match activeAnchor s with
    | Some _ =>
        let box := getEllipseBoundingBox (ellipseData s) in
        match activeHandle (ellipseData s) with
        | None => (Throw, calls)
        | Some activeHandle =>
            let corner := getOppositeCornerScreenCoord box (role activeHandle) in
            (Normal, calls ++ [drawAnchorCross (a_x corner) (a_y corner) 10])
        end
    | None => (Normal, calls)
    end.

(** ** The throttled logger *)

(** The function returned by [throttledLog()], on its captured [callCount]:
    the new count and what is printed on the console. *)
Definition myLog (callCount : nat) (message : string) : nat * list string :=
  let callCount := S callCount in
  if (callCount mod 10 =? 0)%nat then (0%nat, [message]) else (callCount, []).

(** Successive calls, from the count [callCount]. *)
Fixpoint myLogs (callCount : nat) (messages : list string) : nat * list string :=
  match messages with
  | [] => (callCount, [])
  | message :: messages =>
      let '(callCount, printed) := myLog callCount message in
      let '(callCount, printed') := myLogs callCount messages in
      (callCount, printed ++ printed')
  end.

(** ** Runs of the event loop *)

Inductive Event :=
| MouseDown (mx my : R) (button : Z)
| MouseMove (mx my : R)
| MouseUp
| ContextMenu.

(** The state the script is left in once the handler has run; an uncaught
    exception ends the handler and nothing else. *)
Definition step (s : State) (ev : Event) : State :=
  match ev with
  | MouseDown mx my button => onMouseDown s mx my button
  | MouseMove mx my => snd (onMouseMove s mx my)
  | MouseUp => onMouseUp s
  | ContextMenu => onContextMenu s
  end.

Definition run (s : State) (evs : list Event) : State := fold_left step evs s.

Definition Reachable (s : State) : Prop := exists evs, s = run initialState evs.

(** ** Notions used in the statements *)

Definition minOf (vs : list R) : option R := fold_left lowerTo vs None.
Definition maxOf (vs : list R) : option R := fold_left raiseTo vs None.

(** Two parameter records with the same radii, rotation and shear. *)
Definition sameShape (e e0 : Ellipse) : Prop :=
  radiusX e = radiusX e0 /\ radiusY e = radiusY e0 /\
  rotation e = rotation e0 /\ shearX e = shearX e0 /\ shearY e = shearY e0.

Definition isCornerRole (r : string) : Prop :=
  r = "top-left"%string \/ r = "top-right"%string \/
  r = "bottom-left"%string \/ r = "bottom-right"%string.

(** The corner of a box that carries a given corner role: the corner-to-box
    mapping of [computeEllipseCenterForBoxTopLeft]. *)
Definition cornerOfBox (box : Box) (r : string) : R * R :=
  if String.eqb r "top-left" then (box_x box, box_y box)
  else if String.eqb r "top-right" then (box_x box + width box, box_y box)
  else if String.eqb r "bottom-right" then
    (box_x box + width box, box_y box + height box)
  else (box_x box, box_y box + height box).

Definition oppositeRole (r : string) : string :=
  if String.eqb r "top-left" then "bottom-right"
  else if String.eqb r "top-right" then "bottom-left"
  else if String.eqb r "bottom-left" then "top-right"
  else "top-left".

(** The radii a corner drag step leaves, and the ellipse it writes. *)
Definition resizedRadiusX (s : State) (h : Handle) (mx : R) : R :=
  Rmax 5 (radiusX (ellipseData s)
          + (if includes (role h) "left" then -1 else 1)
            * (mx - pt_x (lastMousePos s))).

Definition resizedRadiusY (s : State) (h : Handle) (my : R) : R :=
  Rmax 5 (radiusY (ellipseData s)
          + (if includes (role h) "top" then -1 else 1)
            * (my - pt_y (lastMousePos s))).

Definition resizedEllipse (s : State) (h : Handle) (a : Anchor) (mx my : R)
  : Ellipse :=
  let e := ellipseData s in
  let rx := resizedRadiusX s h mx in
  let ry := resizedRadiusY s h my in
  let c := computeEllipseCenterForBoxTopLeft rx ry (shearX e) (shearY e)
             (rotation e) (a_role a) a in
  mkEllipse (fst c) (snd c) rx ry (rotation e) (shearX e) (shearY e)
            (activeHandle e).

(** A corner drag in progress: the handle pressed has role [r], and the
    anchor stored on the press is [a]. *)
Definition cornerDrag (r : string) (a : Anchor) (s : State) : Prop :=
  hasEllipse s = true /\ isDragging s = true /\
  (exists h, dragHandle s = Some h /\ role h = r) /\
  editMode s = ResizeShear /\ activeAnchor s = Some a.

(** A corner drag in resize-shear mode, whatever the anchor. *)
Definition cornerResizing (h : Handle) (s : State) : Prop :=
  hasEllipse s = true /\ isDragging s = true /\ dragHandle s = Some h /\
  editMode s = ResizeShear.

Definition moveEvents (moves : list (R * R)) : list Event :=
  map (fun p => MouseMove (fst p) (snd p)) moves.

(** Radii are set to absolute values while the shape is being created, and
    a finalized shape does not have both radii zero. *)
Definition radiiInv (s : State) : Prop :=
  ((isDrawing s = true \/ hasEllipse s = true) ->
   0 <= radiusX (ellipseData s) /\ 0 <= radiusY (ellipseData s)) /\
  (hasEllipse s = true ->
   0 < radiusX (ellipseData s) \/ 0 < radiusY (ellipseData s)).

(** [isDragging], [dragHandle] and [activeAnchor] are set together and
    cleared together; [ellipseData.activeHandle] is set with them. *)
Definition dragInv (s : State) : Prop :=
  (isDragging s = false -> dragHandle s = None /\ activeAnchor s = None) /\
  (isDragging s = true ->
   hasEllipse s = true /\ dragHandle s <> None /\ activeAnchor s <> None /\
   activeHandle (ellipseData s) = dragHandle s).

(** Follows the words of the specification, steps (a)-(d) of the resize:
    the offset between the anchor and the position, on the zero-centered
    box, of the corner that carries the role of the DRAGGED corner. *)
Definition specCenterFromDraggedCorner
  (radiusX radiusY shearX shearY rotation : R)
  (draggedRole : string) (anchor : Anchor) : R * R :=
  let box :=
    getEllipseBoundingBox (mkEllipse 0 0 radiusX radiusY rotation shearX shearY None) in
  (a_x anchor - fst (cornerOfBox box draggedRole),
   a_y anchor - snd (cornerOfBox box draggedRole)).

Definition lastMove (moves : list (R * R)) (start : Point) : Point :=
  let p := last moves (pt_x start, pt_y start) in mkPoint (fst p) (snd p).

(** A drag in rotate mode. *)
Definition rotating (s : State) : Prop :=
  hasEllipse s = true /\ isDragging s = true /\ dragHandle s <> None /\
  editMode s = Rotate.

(** A drag of the handle [h], a mid-side handle, in resize-shear mode. *)
Definition shearing (h : Handle) (s : State) : Prop :=
  hasEllipse s = true /\ isDragging s = true /\ dragHandle s = Some h /\
  editMode s = ResizeShear /\ includes (role h) "middle" = true.

(** The test of the shear branch: top and bottom handles shear along x. *)
Definition shearsAlongX (h : Handle) : bool :=
  String.eqb (role h) "top-middle" || String.eqb (role h) "bottom-middle".

Definition shearedBy (h : Handle) (dx dy : R) (e : Ellipse) : Ellipse :=
  if shearsAlongX h then set_shearX (shearX e + dx * 0.01) e
  else set_shearY (shearY e + dy * 0.01) e.

(** The shape is being created around [(cx, cy)]. *)
Definition creating (cx cy : R) (s0 s : State) : Prop :=
  hasEllipse s = false /\ isDrawing s = true /\
  centerX (ellipseData s) = cx /\ centerY (ellipseData s) = cy /\
  rotation (ellipseData s) = rotation (ellipseData s0) /\
  shearX (ellipseData s) = shearX (ellipseData s0) /\
  shearY (ellipseData s) = shearY (ellipseData s0).

Definition modeInv (s : State) : Prop :=
  (isDrawing s = true -> hasEllipse s = false) /\
  (showBoundingBox s = true -> hasEllipse s = true).

Definition isMiddleRole (r : string) : Prop :=
  r = "top-middle"%string \/ r = "bottom-middle"%string \/
  r = "left-middle"%string \/ r = "right-middle"%string.

(** ** The scenario of the specification *)

(** The shape of the scenarios: center (100,100), radii 50 and 30. *)
Definition scenarioEllipse (h : option Handle) : Ellipse :=
  mkEllipse 100 100 50 30 0 0 0 h.

(** The scenario shape, finalized, box shown, nothing dragged. *)
Definition scenarioState : State :=
  mkState false (scenarioEllipse None) true true ResizeShear false None
          (mkPoint 150 130) None.

Definition scenarioHandle : Handle := mkHandle (50 + 100) (70 + 60) "bottom-right".

(** The scenario after a primary press on its bottom-right handle. *)
Definition scenarioPressed : State :=
  mkState false (scenarioEllipse (Some scenarioHandle)) true true ResizeShear
          true (Some scenarioHandle) (mkPoint 150 130)
          (Some (mkAnchor 50 70 (Some "top-left"%string))).

(** A drag begun in rotate mode on a corner handle, with the mode flipped by
    a press inside the box before any release. *)
Definition flippedDrag : State :=
  mkState false (scenarioEllipse (Some scenarioHandle)) true true ResizeShear
          true (Some scenarioHandle) (mkPoint 100 100)
          (Some (mkAnchor 100 100 None)).

(** * Lemmas *)

(** ** Comparisons *)

Lemma Rltb_true a b : Rltb a b = true <-> a < b.
Proof. unfold Rltb; destruct (Rlt_dec a b); split; intros; congruence || lra. Qed.

Lemma Rltb_false a b : Rltb a b = false <-> b <= a.
Proof. unfold Rltb; destruct (Rlt_dec a b); split; intros; congruence || lra. Qed.

Lemma Rleb_true a b : Rleb a b = true <-> a <= b.
Proof. unfold Rleb; destruct (Rle_dec a b); split; intros; congruence || lra. Qed.

Lemma Rleb_false a b : Rleb a b = false <-> b < a.
Proof. unfold Rleb; destruct (Rle_dec a b); split; intros; congruence || lra. Qed.

Lemma Reqb_true a b : Reqb a b = true <-> a = b.
Proof. unfold Reqb; destruct (Req_dec_T a b); split; intros; congruence. Qed.

Lemma Reqb_false a b : Reqb a b = false <-> a <> b.
Proof. unfold Reqb; destruct (Req_dec_T a b); split; intros; congruence. Qed.

(** ** Tactics *)

Ltac decide_cmp :=
  repeat match goal with
  | |- context [Rleb ?a ?b] =>
      first [ replace (Rleb a b) with true by (symmetry; apply Rleb_true; lra)
            | replace (Rleb a b) with false by (symmetry; apply Rleb_false; lra) ]
  | |- context [Rltb ?a ?b] =>
      first [ replace (Rltb a b) with true by (symmetry; apply Rltb_true; lra)
            | replace (Rltb a b) with false by (symmetry; apply Rltb_false; lra) ]
  | |- context [Reqb ?a ?b] =>
      first [ replace (Reqb a b) with true by (symmetry; apply Reqb_true; lra)
            | replace (Reqb a b) with false by (symmetry; apply Reqb_false; lra) ]
  end.

Ltac split_cases :=
  repeat match goal with
  | |- context [if ?c then _ else _] => let E := fresh "E" in destruct c eqn:E
  | |- context [match ?c with _ => _ end] => let E := fresh "E" in destruct c eqn:E
  end.

Ltac state_fields :=
  cbn [isDrawing ellipseData hasEllipse showBoundingBox editMode isDragging
       dragHandle lastMousePos activeAnchor centerX centerY radiusX radiusY
       rotation shearX shearY activeHandle fst snd] in *.

#[local] Arguments set_center cx cy !e /.
#[local] Arguments set_radii rx ry !e /.
#[local] Arguments set_rotation r !e /.
#[local] Arguments set_shearX v !e /.
#[local] Arguments set_shearY v !e /.
#[local] Arguments set_activeHandle h !e /.
#[local] Arguments set_isDrawing b !s /.
#[local] Arguments set_ellipseData e !s /.
#[local] Arguments set_hasEllipse b !s /.
#[local] Arguments set_showBoundingBox b !s /.
#[local] Arguments set_editMode m !s /.
#[local] Arguments set_isDragging b !s /.
#[local] Arguments set_dragHandle h !s /.
#[local] Arguments set_lastMousePos p !s /.
#[local] Arguments set_activeAnchor a !s /.

Ltac unfold_setters :=
  cbn [set_center set_radii set_rotation set_shearX set_shearY
       set_activeHandle set_isDrawing set_ellipseData set_hasEllipse
       set_showBoundingBox set_editMode set_isDragging set_dragHandle
       set_lastMousePos set_activeAnchor
       isDrawing ellipseData hasEllipse showBoundingBox editMode isDragging
       dragHandle lastMousePos activeAnchor centerX centerY radiusX radiusY
       rotation shearX shearY activeHandle].

Ltac bool_facts :=
  repeat match goal with
  | H : (_ && _)%bool = true |- _ => apply andb_prop in H; destruct H
  | H : (_ && _)%bool = false |- _ => apply andb_false_iff in H; destruct H
  | H : Reqb _ _ = true |- _ => apply Reqb_true in H
  | H : Reqb _ _ = false |- _ => apply Reqb_false in H
  end.

Ltac decide_cmp_nra :=
  repeat match goal with
  | |- context [Rleb ?a ?b] =>
      first [ replace (Rleb a b) with true by (symmetry; apply Rleb_true; nra)
            | replace (Rleb a b) with false by (symmetry; apply Rleb_false; nra) ]
  end.

Ltac in_calls :=
  repeat match goal with
  | H : In _ (_ ++ _) |- _ => apply in_app_or in H; destruct H as [H | H]
  | H : In _ (_ :: _) |- _ => destruct H as [H | H]
  | H : In _ [] |- _ => destruct H
  | H : _ = _ |- _ => discriminate H
  end.

(** ** The min/max scan *)

Lemma lowerTo_fold_Some vs : forall m,
  exists r, fold_left lowerTo vs (Some m) = Some r
            /\ r <= m /\ (forall v, In v vs -> r <= v) /\ (r = m \/ In r vs).
Proof.
  induction vs as [|v vs IH]; intros m; simpl.
  - exists m. repeat split; auto; try lra. intros ? [].
  - destruct (Rltb v m) eqn:E.
    + apply Rltb_true in E. destruct (IH v) as (r & -> & Hle & Hall & Hin).
      exists r. repeat split; try lra.
      * intros w [<-|Hw]; auto.
      * right. destruct Hin; auto.
    + apply Rltb_false in E. destruct (IH m) as (r & -> & Hle & Hall & Hin).
      exists r. repeat split; try lra.
      * intros w [<-|Hw]; auto. lra.
      * destruct Hin; auto.
Qed.

Lemma raiseTo_fold_Some vs : forall m,
  exists r, fold_left raiseTo vs (Some m) = Some r
            /\ m <= r /\ (forall v, In v vs -> v <= r) /\ (r = m \/ In r vs).
Proof.
  induction vs as [|v vs IH]; intros m; simpl.
  - exists m. repeat split; auto; try lra. intros ? [].
  - unfold Rgtb. destruct (Rltb m v) eqn:E.
    + apply Rltb_true in E. destruct (IH v) as (r & -> & Hle & Hall & Hin).
      exists r. repeat split; try lra.
      * intros w [<-|Hw]; auto.
      * right. destruct Hin; auto.
    + apply Rltb_false in E. destruct (IH m) as (r & -> & Hle & Hall & Hin).
      exists r. repeat split; try lra.
      * intros w [<-|Hw]; auto. lra.
      * destruct Hin; auto.
Qed.

(** On a list with an element the scan ends on the least (greatest) one. *)
Lemma minOf_spec v vs :
  exists r, minOf (v :: vs) = Some r
            /\ In r (v :: vs) /\ (forall w, In w (v :: vs) -> r <= w).
Proof.
  unfold minOf; simpl.
  destruct (lowerTo_fold_Some vs v) as (r & -> & Hle & Hall & Hin).
  exists r. repeat split.
  - destruct Hin; [left | right]; auto.
  - intros w [<-|Hw]; auto.
Qed.

Lemma maxOf_spec v vs :
  exists r, maxOf (v :: vs) = Some r
            /\ In r (v :: vs) /\ (forall w, In w (v :: vs) -> w <= r).
Proof.
  unfold maxOf; simpl.
  destruct (raiseTo_fold_Some vs v) as (r & -> & Hle & Hall & Hin).
  exists r. repeat split.
  - destruct Hin; [left | right]; auto.
  - intros w [<-|Hw]; auto.
Qed.

Lemma minOf_unique vs m :
  In m vs -> (forall w, In w vs -> m <= w) -> minOf vs = Some m.
Proof.
  destruct vs as [|v vs]; [intros []|]. intros Hin Hall.
  destruct (minOf_spec v vs) as (r & -> & Hr & Hmin).
  f_equal. apply Rle_antisym; auto.
Qed.

Lemma maxOf_unique vs m :
  In m vs -> (forall w, In w vs -> w <= m) -> maxOf vs = Some m.
Proof.
  destruct vs as [|v vs]; [intros []|]. intros Hin Hall.
  destruct (maxOf_spec v vs) as (r & -> & Hr & Hmax).
  f_equal. apply Rle_antisym; auto.
Qed.

(** The four accumulators of [scanPoints] run independently. *)
Lemma scanPoints_fold pts : forall a,
  fold_left scanPoint pts a =
  mkExtent (fold_left lowerTo (map pt_x pts) (minX a))
           (fold_left raiseTo (map pt_x pts) (maxX a))
           (fold_left lowerTo (map pt_y pts) (minY a))
           (fold_left raiseTo (map pt_y pts) (maxY a)).
Proof.
  induction pts as [|pt pts IH]; intros a; simpl.
  - destruct a; reflexivity.
  - rewrite IH. reflexivity.
Qed.

Lemma scanPoints_minmax pts :
  scanPoints pts =
  mkExtent (minOf (map pt_x pts)) (maxOf (map pt_x pts))
           (minOf (map pt_y pts)) (maxOf (map pt_y pts)).
Proof. unfold scanPoints. rewrite scanPoints_fold. reflexivity. Qed.

Lemma lowerTo_fold_translate c vs : forall acc,
  fold_left lowerTo (map (fun v => v + c) vs) (option_map (fun v => v + c) acc)
  = option_map (fun v => v + c) (fold_left lowerTo vs acc).
Proof.
  induction vs as [|v vs IH]; intros acc; simpl; [reflexivity|].
  rewrite <- IH. f_equal.
  destruct acc as [m|]; simpl; [|reflexivity].
  destruct (Rltb v m) eqn:E.
  - apply Rltb_true in E.
    assert (Rltb (v + c) (m + c) = true) as -> by (apply Rltb_true; lra).
    reflexivity.
  - apply Rltb_false in E.
    assert (Rltb (v + c) (m + c) = false) as -> by (apply Rltb_false; lra).
    reflexivity.
Qed.

Lemma raiseTo_fold_translate c vs : forall acc,
  fold_left raiseTo (map (fun v => v + c) vs) (option_map (fun v => v + c) acc)
  = option_map (fun v => v + c) (fold_left raiseTo vs acc).
Proof.
  induction vs as [|v vs IH]; intros acc; simpl; [reflexivity|].
  rewrite <- IH. f_equal.
  destruct acc as [m|]; simpl; [|reflexivity].
  unfold Rgtb. destruct (Rltb m v) eqn:E.
  - apply Rltb_true in E.
    assert (Rltb (m + c) (v + c) = true) as -> by (apply Rltb_true; lra).
    reflexivity.
  - apply Rltb_false in E.
    assert (Rltb (m + c) (v + c) = false) as -> by (apply Rltb_false; lra).
    reflexivity.
Qed.

Lemma minOf_translate c vs :
  minOf (map (fun v => v + c) vs) = option_map (fun v => v + c) (minOf vs).
Proof. exact (lowerTo_fold_translate c vs None). Qed.

Lemma maxOf_translate c vs :
  maxOf (map (fun v => v + c) vs) = option_map (fun v => v + c) (maxOf vs).
Proof. exact (raiseTo_fold_translate c vs None). Qed.

(** ** The sampled bounding box *)

Lemma getEllipsePoints_cons e steps :
  getEllipsePoints e steps
  = samplePoint e steps 0 :: map (samplePoint e steps) (seq 1 steps).
Proof. reflexivity. Qed.

Lemma getEllipsePoints_length e steps :
  List.length (getEllipsePoints e steps) = S steps.
Proof. unfold getEllipsePoints. rewrite length_map, length_seq. reflexivity. Qed.

Lemma In_getEllipsePoints e steps pt :
  In pt (getEllipsePoints e steps)
  <-> exists i, (i <= steps)%nat /\ pt = samplePoint e steps i.
Proof.
  unfold getEllipsePoints. rewrite in_map_iff. split.
  - intros (i & <- & Hi). apply in_seq in Hi. exists i. split; [lia | reflexivity].
  - intros (i & Hi & ->). exists i. split; [reflexivity | apply in_seq; lia].
Qed.

(** The box in terms of the extreme sample coordinates. *)
Lemma getEllipseBoundingBox_minmax e x0 x1 y0 y1 :
  minOf (map pt_x (getEllipsePoints e 60)) = Some x0 ->
  maxOf (map pt_x (getEllipsePoints e 60)) = Some x1 ->
  minOf (map pt_y (getEllipsePoints e 60)) = Some y0 ->
  maxOf (map pt_y (getEllipsePoints e 60)) = Some y1 ->
  getEllipseBoundingBox e = mkBox x0 y0 (x1 - x0) (y1 - y0).
Proof.
  intros Hx0 Hx1 Hy0 Hy1. unfold getEllipseBoundingBox.
  cbv zeta. rewrite scanPoints_minmax. unfold boxOfExtent.
  cbn [minX maxX minY maxY]. rewrite Hx0, Hx1, Hy0, Hy1. reflexivity.
Qed.

(** The extreme coordinates exist: the scan runs over the 61 samples. *)
Lemma sample_extremes e :
  exists x0 x1 y0 y1,
    minOf (map pt_x (getEllipsePoints e 60)) = Some x0 /\
    maxOf (map pt_x (getEllipsePoints e 60)) = Some x1 /\
    minOf (map pt_y (getEllipsePoints e 60)) = Some y0 /\
    maxOf (map pt_y (getEllipsePoints e 60)) = Some y1 /\
    x0 <= x1 /\ y0 <= y1.
Proof.
  rewrite getEllipsePoints_cons. rewrite !map_cons.
  set (p := samplePoint e 60 0).
  set (xs := map pt_x _). set (ys := map pt_y _).
  destruct (minOf_spec (pt_x p) xs) as (x0 & Hx0 & _ & Hmin).
  destruct (maxOf_spec (pt_x p) xs) as (x1 & Hx1 & _ & Hmax).
  destruct (minOf_spec (pt_y p) ys) as (y0 & Hy0 & _ & Hmin').
  destruct (maxOf_spec (pt_y p) ys) as (y1 & Hy1 & _ & Hmax').
  exists x0, x1, y0, y1. repeat split; auto.
  - specialize (Hmin (pt_x p) (or_introl eq_refl)).
    specialize (Hmax (pt_x p) (or_introl eq_refl)). lra.
  - specialize (Hmin' (pt_y p) (or_introl eq_refl)).
    specialize (Hmax' (pt_y p) (or_introl eq_refl)). lra.
Qed.

Lemma getEllipseBoundingBox_scan e :
  boxOfExtent (scanPoints (getEllipsePoints e 60))
  = Some (getEllipseBoundingBox e).
Proof.
  destruct (sample_extremes e) as (x0 & x1 & y0 & y1 & H0 & H1 & H2 & H3 & _).
  rewrite (getEllipseBoundingBox_minmax e _ _ _ _ H0 H1 H2 H3).
  rewrite scanPoints_minmax. unfold boxOfExtent.
  cbn [minX maxX minY maxY]. rewrite H0, H1, H2, H3. reflexivity.
Qed.

Lemma samplePoint_translate e e0 steps i :
  sameShape e e0 -> centerX e0 = 0 -> centerY e0 = 0 ->
  pt_x (samplePoint e steps i) = pt_x (samplePoint e0 steps i) + centerX e /\
  pt_y (samplePoint e steps i) = pt_y (samplePoint e0 steps i) + centerY e.
Proof.
  intros (Hrx & Hry & Hrot & Hsx & Hsy) Hcx Hcy.
  unfold samplePoint, shearPoint, rotatePoint. cbn [pt_x pt_y].
  rewrite Hrx, Hry, Hrot, Hsx, Hsy, Hcx, Hcy. split; ring.
Qed.

(** Moving the center moves the sampled box and keeps its size. *)
Lemma getEllipseBoundingBox_translate e e0 :
  sameShape e e0 -> centerX e0 = 0 -> centerY e0 = 0 ->
  getEllipseBoundingBox e =
  mkBox (box_x (getEllipseBoundingBox e0) + centerX e)
        (box_y (getEllipseBoundingBox e0) + centerY e)
        (width (getEllipseBoundingBox e0))
        (height (getEllipseBoundingBox e0)).
Proof.
  intros Hs Hcx Hcy.
  assert (Hxs : map pt_x (getEllipsePoints e 60)
                = map (fun v => v + centerX e) (map pt_x (getEllipsePoints e0 60))).
  { unfold getEllipsePoints. rewrite !map_map. apply map_ext. intros i.
    apply (samplePoint_translate e e0 60 i Hs Hcx Hcy). }
  assert (Hys : map pt_y (getEllipsePoints e 60)
                = map (fun v => v + centerY e) (map pt_y (getEllipsePoints e0 60))).
  { unfold getEllipsePoints. rewrite !map_map. apply map_ext. intros i.
    apply (samplePoint_translate e e0 60 i Hs Hcx Hcy). }
  destruct (sample_extremes e0) as (x0 & x1 & y0 & y1 & H0 & H1 & H2 & H3 & _).
  rewrite (getEllipseBoundingBox_minmax e0 _ _ _ _ H0 H1 H2 H3).
  cbn [box_x box_y width height].
  rewrite (getEllipseBoundingBox_minmax e (x0 + centerX e) (x1 + centerX e)
             (y0 + centerY e) (y1 + centerY e)).
  - f_equal; ring.
  - rewrite Hxs, minOf_translate, H0. reflexivity.
  - rewrite Hxs, maxOf_translate, H1. reflexivity.
  - rewrite Hys, minOf_translate, H2. reflexivity.
  - rewrite Hys, maxOf_translate, H3. reflexivity.
Qed.

(** ** The box of an ellipse without shear or rotation *)

Lemma samplePoint_plain e i :
  rotation e = 0 -> shearX e = 0 -> shearY e = 0 ->
  samplePoint e 60 i =
  mkPoint (radiusX e * cos (2 * PI * INR i / INR 60) + centerX e)
          (radiusY e * sin (2 * PI * INR i / INR 60) + centerY e).
Proof.
  intros Hrot Hsx Hsy. unfold samplePoint, shearPoint, rotatePoint.
  rewrite Hrot, Hsx, Hsy, cos_0, sin_0. f_equal; ring.
Qed.

Lemma INR_lit (n : nat) : INR n = IZR (Z.of_nat n).
Proof. apply INR_IZR_INZ. Qed.

Lemma angle_0 : 2 * PI * INR 0 / INR 60 = 0.
Proof. rewrite !INR_lit. cbn [Z.of_nat]. lra. Qed.

Lemma angle_15 : 2 * PI * INR 15 / INR 60 = PI / 2.
Proof. rewrite !INR_lit. cbv [Z.of_nat Pos.of_succ_nat Pos.succ]. lra. Qed.

Lemma angle_30 : 2 * PI * INR 30 / INR 60 = PI.
Proof. rewrite !INR_lit. cbv [Z.of_nat Pos.of_succ_nat Pos.succ]. lra. Qed.

Lemma angle_45 : 2 * PI * INR 45 / INR 60 = 3 * (PI / 2).
Proof. rewrite !INR_lit. cbv [Z.of_nat Pos.of_succ_nat Pos.succ]. lra. Qed.

Lemma getEllipseBoundingBox_plain e :
  rotation e = 0 -> shearX e = 0 -> shearY e = 0 ->
  0 <= radiusX e -> 0 <= radiusY e ->
  getEllipseBoundingBox e =
  mkBox (centerX e - radiusX e) (centerY e - radiusY e)
        (centerX e + radiusX e - (centerX e - radiusX e))
        (centerY e + radiusY e - (centerY e - radiusY e)).
Proof.
  intros Hrot Hsx Hsy Hrx Hry.
  assert (Hin : forall (f : Point -> R) i v, (i <= 60)%nat ->
            f (samplePoint e 60 i) = v -> In v (map f (getEllipsePoints e 60))).
  { intros f i v Hi <-. apply in_map. apply In_getEllipsePoints. eauto. }
  assert (Hall : forall (f : Point -> R) (P : R -> Prop),
            (forall i, P (f (samplePoint e 60 i))) ->
            forall w, In w (map f (getEllipsePoints e 60)) -> P w).
  { intros f P HP w Hw. apply in_map_iff in Hw. destruct Hw as (pt & <- & Hpt).
    apply In_getEllipsePoints in Hpt. destruct Hpt as (i & _ & ->). apply HP. }
  apply getEllipseBoundingBox_minmax.
  - apply minOf_unique.
    + apply (Hin pt_x 30%nat); [lia|].
      rewrite samplePoint_plain by assumption. cbn [pt_x].
      rewrite angle_30, cos_PI. ring.
    + apply Hall. intros i. rewrite samplePoint_plain by assumption. cbn [pt_x].
      pose proof (COS_bound (2 * PI * INR i / INR 60)). nra.
  - apply maxOf_unique.
    + apply (Hin pt_x 0%nat); [lia|].
      rewrite samplePoint_plain by assumption. cbn [pt_x].
      rewrite angle_0, cos_0. ring.
    + apply Hall. intros i. rewrite samplePoint_plain by assumption. cbn [pt_x].
      pose proof (COS_bound (2 * PI * INR i / INR 60)). nra.
  - apply minOf_unique.
    + apply (Hin pt_y 45%nat); [lia|].
      rewrite samplePoint_plain by assumption. cbn [pt_y].
      rewrite angle_45, sin_3PI2. ring.
    + apply Hall. intros i. rewrite samplePoint_plain by assumption. cbn [pt_y].
      pose proof (SIN_bound (2 * PI * INR i / INR 60)). nra.
  - apply maxOf_unique.
    + apply (Hin pt_y 15%nat); [lia|].
      rewrite samplePoint_plain by assumption. cbn [pt_y].
      rewrite angle_15, sin_PI2. ring.
    + apply Hall. intros i. rewrite samplePoint_plain by assumption. cbn [pt_y].
      pose proof (SIN_bound (2 * PI * INR i / INR 60)). nra.
Qed.

Lemma scenario_box h :
  getEllipseBoundingBox (scenarioEllipse h) = mkBox 50 70 100 60.
Proof.
  rewrite getEllipseBoundingBox_plain; cbn [scenarioEllipse rotation shearX shearY
    radiusX radiusY centerX centerY]; try lra.
  f_equal; lra.
Qed.

(** ** Corner handles *)

(** The handles of a box that are not [middle] handles are its corners. *)
Lemma corner_of_handles box h :
  In h (getHandlesFromBox box) -> includes (role h) "middle" = false ->
  isCornerRole (role h).
Proof.
  unfold getHandlesFromBox, isCornerRole. cbv zeta.
  intros Hin Hmid. cbn [In] in Hin.
  repeat (destruct Hin as [<- | Hin]); cbn [role] in *;
    try (vm_compute in Hmid; discriminate); auto.
  destruct Hin.
Qed.

Lemma findHandleHit_In handles mx my radius h :
  findHandleHit handles mx my radius = Some h -> In h handles.
Proof. unfold findHandleHit. intros H. apply find_some in H. apply H. Qed.

Lemma corner_not_middle r : isCornerRole r -> includes r "middle" = false.
Proof. intros [-> | [-> | [-> | ->]]]; reflexivity. Qed.

Lemma getOppositeCornerScreenCoord_corner box r :
  isCornerRole r ->
  getOppositeCornerScreenCoord box r =
  mkAnchor (fst (cornerOfBox box (oppositeRole r)))
           (snd (cornerOfBox box (oppositeRole r)))
           (Some (oppositeRole r)).
Proof. intros [-> | [-> | [-> | ->]]]; reflexivity. Qed.

Lemma computeEllipseCenter_corner rx ry sx sy rot r a :
  isCornerRole r ->
  computeEllipseCenterForBoxTopLeft rx ry sx sy rot (Some r) a =
  let box := getEllipseBoundingBox (mkEllipse 0 0 rx ry rot sx sy None) in
  (a_x a - fst (cornerOfBox box r), a_y a - snd (cornerOfBox box r)).
Proof.
  intros Hr. unfold computeEllipseCenterForBoxTopLeft. cbv zeta.
  generalize (getEllipseBoundingBox (mkEllipse 0 0 rx ry rot sx sy None)).
  intros box. destruct Hr as [-> | [-> | [-> | ->]]]; reflexivity.
Qed.

Lemma oppositeRole_corner r : isCornerRole r -> isCornerRole (oppositeRole r).
Proof. unfold isCornerRole. intros [-> | [-> | [-> | ->]]]; cbn; auto. Qed.

(** Moving a box so that one corner lands on a point puts that corner there. *)
Lemma corner_moved_onto (b0 : Box) (r : string) (a : Anchor) :
  isCornerRole r -> a_role a = Some (oppositeRole r) ->
  getOppositeCornerScreenCoord
    (mkBox (box_x b0 + (a_x a - fst (cornerOfBox b0 (oppositeRole r))))
           (box_y b0 + (a_y a - snd (cornerOfBox b0 (oppositeRole r))))
           (width b0) (height b0)) r
  = a.
Proof.
  intros Hr Ha. rewrite getOppositeCornerScreenCoord_corner by exact Hr.
  destruct a as [x y ro]. cbn [a_role a_x a_y] in *. subst ro.
  destruct Hr as [-> | [-> | [-> | ->]]];
    cbn [oppositeRole cornerOfBox String.eqb Ascii.eqb Bool.eqb
         box_x box_y width height fst snd]; f_equal; ring.
Qed.

(** The center found for an anchor puts the anchored corner of the new box
    on the anchor. *)
Lemma anchor_restored rx ry sx sy rot ah r (a : Anchor) :
  isCornerRole r -> a_role a = Some (oppositeRole r) ->
  let c := computeEllipseCenterForBoxTopLeft rx ry sx sy rot (a_role a) a in
  getOppositeCornerScreenCoord
    (getEllipseBoundingBox (mkEllipse (fst c) (snd c) rx ry rot sx sy ah)) r
  = a.
Proof.
  intros Hr Ha c.
  assert (Hc : c = (a_x a - fst (cornerOfBox (getEllipseBoundingBox
                                   (mkEllipse 0 0 rx ry rot sx sy None))
                                   (oppositeRole r)),
                    a_y a - snd (cornerOfBox (getEllipseBoundingBox
                                   (mkEllipse 0 0 rx ry rot sx sy None))
                                   (oppositeRole r)))).
  { unfold c. rewrite Ha.
    apply computeEllipseCenter_corner, oppositeRole_corner, Hr. }
  rewrite (getEllipseBoundingBox_translate
             (mkEllipse (fst c) (snd c) rx ry rot sx sy ah)
             (mkEllipse 0 0 rx ry rot sx sy None)
             (conj eq_refl (conj eq_refl (conj eq_refl (conj eq_refl eq_refl))))
             eq_refl eq_refl).
  cbn [centerX centerY]. rewrite Hc. cbn [fst snd].
  apply corner_moved_onto; assumption.
Qed.

(** ** The handlers on a corner drag *)

Lemma getEllipsePoints_activeHandle h e steps :
  getEllipsePoints (set_activeHandle h e) steps = getEllipsePoints e steps.
Proof. unfold getEllipsePoints. apply map_ext. intros i. reflexivity. Qed.

Lemma getEllipseBoundingBox_activeHandle h e :
  getEllipseBoundingBox (set_activeHandle h e) = getEllipseBoundingBox e.
Proof.
  unfold getEllipseBoundingBox. cbv zeta.
  rewrite getEllipsePoints_activeHandle. reflexivity.
Qed.

(** A primary press on a handle of the visible box. *)
Lemma onMouseDown_hit s mx my button h :
  button <> 2%Z -> hasEllipse s = true -> showBoundingBox s = true ->
  findHandleHit (getHandlesFromBox (getEllipseBoundingBox (ellipseData s)))
                mx my 6 = Some h ->
  onMouseDown s mx my button =
  mkState (isDrawing s) (set_activeHandle (Some h) (ellipseData s)) true true
          (editMode s) true (Some h) (mkPoint mx my)
          (Some match editMode s with
                | Rotate =>
                    mkAnchor (centerX (ellipseData s)) (centerY (ellipseData s)) None
                | ResizeShear =>
                    if includes (role h) "middle"
                    then mkAnchor (centerX (ellipseData s))
                                  (centerY (ellipseData s)) None
                    else getOppositeCornerScreenCoord
                           (getEllipseBoundingBox (ellipseData s)) (role h)
                end).
Proof.
  intros Hb Hhas Hshow Hhit. unfold onMouseDown. cbv zeta.
  apply Z.eqb_neq in Hb. rewrite Hb.
  unfold set_lastMousePos.
  cbn [hasEllipse isDrawing ellipseData showBoundingBox editMode].
  rewrite Hhas, Hshow. cbn [negb]. rewrite Hhit.
  unfold set_activeAnchor, set_ellipseData, set_dragHandle, set_isDragging.
  cbn [isDrawing ellipseData hasEllipse showBoundingBox editMode isDragging
       dragHandle lastMousePos activeAnchor set_activeHandle centerX centerY].
  reflexivity.
Qed.

Lemma onMouseMove_corner s mx my h a :
  hasEllipse s = true -> isDragging s = true -> dragHandle s = Some h ->
  editMode s = ResizeShear -> includes (role h) "middle" = false ->
  activeAnchor s = Some a ->
  onMouseMove s mx my =
  (Normal,
   set_lastMousePos (mkPoint mx my)
     (set_ellipseData (resizedEllipse s h a mx my) s)).
Proof.
  intros Hhas Hdrag Hh Hmode Hmid Ha. unfold onMouseMove.
  rewrite Hhas, Hdrag, Hh, Hmode, Hmid, Ha. cbn [negb andb]. cbv zeta.
  unfold resizedEllipse, resizedRadiusX, resizedRadiusY, set_center, set_radii.
  cbn [centerX centerY radiusX radiusY rotation shearX shearY activeHandle].
  reflexivity.
Qed.

(** A drag of the corner with role [r] against the anchor [a] that the
    press stored for it. *)
Section CornerDrag.

Variable r : string.
Variable a : Anchor.
Hypothesis corner_r : isCornerRole r.
Hypothesis role_a : a_role a = Some (oppositeRole r).

Lemma cornerDrag_move s mx my :
  cornerDrag r a s ->
  fst (onMouseMove s mx my) = Normal /\
  cornerDrag r a (step s (MouseMove mx my)) /\
  getOppositeCornerScreenCoord
    (getEllipseBoundingBox (ellipseData (step s (MouseMove mx my)))) r = a.
Proof.
  intros (Hhas & Hdrag & (h & Hh & Hrole) & Hmode & Hanchor).
  assert (Hmid : includes (role h) "middle" = false)
    by (rewrite Hrole; apply corner_not_middle, corner_r).
  cbn [step].
  rewrite (onMouseMove_corner s mx my h a Hhas Hdrag Hh Hmode Hmid Hanchor).
  cbn [fst snd]. split; [reflexivity|]. split.
  - unfold cornerDrag, set_lastMousePos, set_ellipseData.
    cbn [hasEllipse isDragging dragHandle editMode activeAnchor].
    repeat split; eauto.
  - unfold set_lastMousePos, set_ellipseData. cbn [ellipseData].
    unfold resizedEllipse. cbv zeta. apply anchor_restored; assumption.
Qed.

Lemma cornerDrag_moves moves : forall s,
  cornerDrag r a s ->
  getOppositeCornerScreenCoord (getEllipseBoundingBox (ellipseData s)) r = a ->
  cornerDrag r a (run s (moveEvents moves)) /\
  getOppositeCornerScreenCoord
    (getEllipseBoundingBox (ellipseData (run s (moveEvents moves)))) r = a.
Proof.
  induction moves as [|[mx my] moves IH]; intros s Hs Hbox.
  - split; assumption.
  - cbn [moveEvents map run fold_left fst snd].
    destruct (cornerDrag_move s mx my Hs) as (_ & Hs' & Hbox').
    apply (IH _ Hs' Hbox').
Qed.

End CornerDrag.

Lemma cornerResizing_move h s mx my :
  includes (role h) "middle" = false -> cornerResizing h s ->
  radiusX (ellipseData (step s (MouseMove mx my))) = resizedRadiusX s h mx /\
  radiusY (ellipseData (step s (MouseMove mx my))) = resizedRadiusY s h my /\
  cornerResizing h (step s (MouseMove mx my)).
Proof.
  intros Hmid (Hhas & Hdrag & Hh & Hmode).
  unfold cornerResizing. cbn [step]. unfold onMouseMove.
  rewrite Hhas, Hdrag, Hh, Hmode, Hmid. cbn [negb andb]. cbv zeta.
  unfold resizedRadiusX, resizedRadiusY.
  destruct (activeAnchor s) as [a|]; cbn [snd];
    unfold set_lastMousePos, set_ellipseData, set_center, set_radii;
    cbn [ellipseData hasEllipse isDragging dragHandle editMode radiusX radiusY];
    repeat split; assumption.
Qed.

Lemma cornerResizing_moves h moves : forall s,
  includes (role h) "middle" = false -> cornerResizing h s ->
  cornerResizing h (run s (moveEvents moves)).
Proof.
  induction moves as [|[mx my] moves IH]; intros s Hmid Hs; [exact Hs|].
  cbn [moveEvents map run fold_left fst snd].
  apply IH; [exact Hmid|]. apply cornerResizing_move; assumption.
Qed.

Lemma run_app s evs evs' : run s (evs ++ evs') = run (run s evs) evs'.
Proof. unfold run. apply fold_left_app. Qed.

(** ** The scenario, step by step *)

Lemma onMouseDown_first s mx my button :
  button <> 2%Z -> hasEllipse s = false -> isDrawing s = false ->
  onMouseDown s mx my button =
  mkState true (set_radii 0 0 (set_center mx my (ellipseData s))) false
          (showBoundingBox s) (editMode s) (isDragging s) (dragHandle s)
          (mkPoint mx my) (activeAnchor s).
Proof.
  intros Hb Hhas Hdr. apply Z.eqb_neq in Hb.
  destruct s as [dr e has sh m dg dh lp an]. state_fields. subst dr has.
  unfold onMouseDown. cbv zeta. rewrite Hb. reflexivity.
Qed.

Lemma onMouseMove_creating s mx my :
  hasEllipse s = false -> isDrawing s = true ->
  onMouseMove s mx my =
  (Normal,
   set_ellipseData
     (set_radii (Rabs (mx - centerX (ellipseData s)))
                (Rabs (my - centerY (ellipseData s))) (ellipseData s)) s).
Proof.
  intros Hhas Hdr. unfold onMouseMove. rewrite Hhas, Hdr. reflexivity.
Qed.

Lemma onMouseDown_second s mx my button :
  button <> 2%Z -> hasEllipse s = false -> isDrawing s = true ->
  onMouseDown s mx my button =
  mkState false
          (if Reqb (radiusX (ellipseData s)) 0 && Reqb (radiusY (ellipseData s)) 0
           then set_radii 10 10 (ellipseData s) else ellipseData s)
          true true (editMode s) (isDragging s) (dragHandle s)
          (mkPoint mx my) (activeAnchor s).
Proof.
  intros Hb Hhas Hdr. apply Z.eqb_neq in Hb.
  destruct s as [dr e has sh m dg dh lp an]. state_fields. subst dr has.
  unfold onMouseDown. cbv zeta. rewrite Hb. reflexivity.
Qed.

Lemma create_by_drag cx cy mx my :
  Rabs (mx - cx) <> 0 \/ Rabs (my - cy) <> 0 ->
  run initialState [MouseDown cx cy 0; MouseMove mx my; MouseDown mx my 0]
  = mkState false (mkEllipse cx cy (Rabs (mx - cx)) (Rabs (my - cy)) 0 0 0 None)
            true true ResizeShear false None (mkPoint mx my) None.
Proof.
  intros Hmoved.
  assert (Hz : Reqb (Rabs (mx - cx)) 0 && Reqb (Rabs (my - cy)) 0 = false).
  { apply andb_false_iff.
    destruct Hmoved; [left | right]; apply Reqb_false; assumption. }
  cbn [run fold_left step].
  rewrite (onMouseDown_first initialState cx cy 0)
    by (discriminate || reflexivity).
  unfold initialState. unfold_setters.
  rewrite onMouseMove_creating by reflexivity. cbn [snd]. unfold_setters.
  rewrite onMouseDown_second by (discriminate || reflexivity).
  unfold_setters. rewrite Hz. reflexivity.
Qed.

Lemma scenario_created :
  run initialState [MouseDown 100 100 0; MouseMove 150 130; MouseDown 150 130 0]
  = scenarioState.
Proof.
  assert (Hx : Rabs (150 - 100) = 50) by (rewrite Rabs_right; lra).
  assert (Hy : Rabs (130 - 100) = 30) by (rewrite Rabs_right; lra).
  rewrite create_by_drag by (left; rewrite Hx; lra).
  rewrite Hx, Hy. reflexivity.
Qed.

Lemma scenario_hit :
  findHandleHit
    (getHandlesFromBox (getEllipseBoundingBox (ellipseData scenarioState)))
    150 130 6 = Some scenarioHandle.
Proof.
  cbn [scenarioState ellipseData]. rewrite scenario_box.
  unfold findHandleHit, getHandlesFromBox. cbv zeta.
  cbn [find box_x box_y width height h_x h_y].
  decide_cmp. reflexivity.
Qed.

Lemma scenario_pressed : onMouseDown scenarioState 150 130 0 = scenarioPressed.
Proof.
  rewrite (onMouseDown_hit scenarioState 150 130 0 scenarioHandle);
    [| discriminate | reflexivity | reflexivity | exact scenario_hit].
  cbn [scenarioState isDrawing ellipseData editMode scenarioHandle role].
  rewrite scenario_box. reflexivity.
Qed.

(** ... and after the pointer has then moved to (170,130). *)
Lemma scenario_moved :
  ellipseData (step scenarioPressed (MouseMove 170 130))
  = mkEllipse 120 100 70 30 0 0 0 (Some scenarioHandle).
Proof.
  cbn [step].
  rewrite (onMouseMove_corner scenarioPressed 170 130 scenarioHandle
             (mkAnchor 50 70 (Some "top-left"%string))); try reflexivity.
  cbn [snd]. unfold set_lastMousePos, set_ellipseData. cbn [ellipseData].
  unfold resizedEllipse. cbv zeta.
  assert (Hrx : resizedRadiusX scenarioPressed scenarioHandle 170 = 70).
  { unfold resizedRadiusX.
    cbn [scenarioPressed ellipseData scenarioEllipse radiusX lastMousePos pt_x
         scenarioHandle role].
    replace (includes "bottom-right" "left") with false by reflexivity.
    rewrite Rmax_right; lra. }
  assert (Hry : resizedRadiusY scenarioPressed scenarioHandle 130 = 30).
  { unfold resizedRadiusY.
    cbn [scenarioPressed ellipseData scenarioEllipse radiusY lastMousePos pt_y
         scenarioHandle role].
    replace (includes "bottom-right" "top") with false by reflexivity.
    rewrite Rmax_right; lra. }
  rewrite Hrx, Hry.
  cbn [scenarioPressed ellipseData scenarioEllipse rotation shearX shearY
       activeHandle a_role].
  rewrite computeEllipseCenter_corner by (left; reflexivity). cbv zeta.
  rewrite getEllipseBoundingBox_plain;
    cbn [rotation shearX shearY radiusX radiusY centerX centerY]; try lra.
  cbn [cornerOfBox String.eqb Ascii.eqb Bool.eqb box_x box_y fst snd a_x a_y].
  f_equal; lra.
Qed.

(** ** Invariants of the reachable states *)

Lemma radiiInv_step s ev : radiiInv s -> radiiInv (step s ev).
Proof.
  destruct s as [dr [cx cy rx ry rot sx sy ah] has sh m dg dh lp an].
  unfold radiiInv. state_fields. intros (Hpos & Hnz).
  assert (Hpos' : dr = true \/ has = true -> 0 <= rx) by (intros H; apply Hpos, H).
  assert (Hpos'' : dr = true \/ has = true -> 0 <= ry) by (intros H; apply Hpos, H).
  clear Hpos.
  destruct ev as [mx my button | mx my | |]; cbn [step].
  - unfold onMouseDown. cbv zeta. unfold_setters. state_fields.
    destruct dr, has; cbn [negb];
      try specialize (Hpos' (or_introl eq_refl));
      try specialize (Hpos'' (or_introl eq_refl));
      try specialize (Hpos' (or_intror eq_refl));
      try specialize (Hpos'' (or_intror eq_refl));
      try specialize (Hnz eq_refl);
      split_cases; state_fields; bool_facts;
      (split; intros Hx; try discriminate; try (destruct Hx; discriminate); lra).
  - unfold onMouseMove. cbv zeta. unfold_setters. state_fields.
    pose proof (Rabs_pos (mx - cx)); pose proof (Rabs_pos (my - cy)).
    pose proof (Rmax_l 5 (rx + -1 * (mx - pt_x lp))).
    pose proof (Rmax_l 5 (rx + 1 * (mx - pt_x lp))).
    pose proof (Rmax_l 5 (ry + -1 * (my - pt_y lp))).
    pose proof (Rmax_l 5 (ry + 1 * (my - pt_y lp))).
    destruct dr, has; cbn [negb andb];
      try specialize (Hpos' (or_introl eq_refl));
      try specialize (Hpos'' (or_introl eq_refl));
      try specialize (Hpos' (or_intror eq_refl));
      try specialize (Hpos'' (or_intror eq_refl));
      try specialize (Hnz eq_refl);
      split_cases; state_fields;
      (split; intros Hx; try discriminate; try (destruct Hx; discriminate); lra).
  - unfold onMouseUp. unfold_setters. state_fields. auto.
  - unfold onContextMenu. unfold_setters. state_fields. auto.
Qed.

Lemma dragInv_step s ev : dragInv s -> dragInv (step s ev).
Proof.
  destruct s as [dr [cx cy rx ry rot sx sy ah] has sh m dg dh lp an].
  unfold dragInv. state_fields. intros (Hoff & Hon).
  destruct ev as [mx my button | mx my | |]; cbn [step].
  - unfold onMouseDown. cbv zeta. unfold_setters.
    destruct dg;
      [specialize (Hon eq_refl); destruct Hon as (-> & Hdh & Han & ->); clear Hoff
      |specialize (Hoff eq_refl); destruct Hoff as (-> & ->); clear Hon;
       destruct has];
      cbn [negb]; split_cases; unfold_setters;
      (split; intros Hx; try discriminate; repeat split; congruence).
  - unfold onMouseMove. cbv zeta. unfold_setters.
    destruct dg;
      [specialize (Hon eq_refl); destruct Hon as (-> & Hdh & Han & ->); clear Hoff
      |specialize (Hoff eq_refl); destruct Hoff as (-> & ->); clear Hon;
       destruct has];
      cbn [negb andb]; split_cases; cbn [snd]; unfold_setters;
      (split; intros Hx; try discriminate; repeat split; congruence).
  - unfold onMouseUp. unfold_setters.
    split; intros Hx; [auto | discriminate].
  - unfold onContextMenu. unfold_setters. auto.
Qed.

Lemma radiiInv_initial : radiiInv initialState.
Proof. split; cbn; intros H; [lra | discriminate]. Qed.

Lemma dragInv_initial : dragInv initialState.
Proof. split; cbn; intros H; [auto | discriminate]. Qed.

Lemma run_invariant (P : State -> Prop) :
  (forall s ev, P s -> P (step s ev)) ->
  forall evs s, P s -> P (run s evs).
Proof.
  intros Hstep evs. induction evs as [|ev evs IH]; intros s Hs; [exact Hs|].
  cbn [run fold_left]. apply IH, Hstep, Hs.
Qed.

Lemma Reachable_radiiInv s : Reachable s -> radiiInv s.
Proof.
  intros (evs & ->).
  apply (run_invariant radiiInv radiiInv_step), radiiInv_initial.
Qed.

Lemma Reachable_dragInv s : Reachable s -> dragInv s.
Proof.
  intros (evs & ->).
  apply (run_invariant dragInv dragInv_step), dragInv_initial.
Qed.

(** In a reachable state no handler throws: [activeAnchor] is an object
    whenever a handle is dragged. *)
Lemma Reachable_no_throw s mx my :
  Reachable s -> fst (onMouseMove s mx my) = Normal.
Proof.
  intros Hs. apply Reachable_dragInv in Hs. destruct Hs as (Hoff & Hon).
  unfold onMouseMove. cbv zeta.
  destruct (isDragging s).
  - destruct (Hon eq_refl) as (_ & _ & Han & _).
    destruct (activeAnchor s); [|congruence].
    split_cases; reflexivity.
  - rewrite andb_false_r. split_cases; reflexivity.
Qed.

(** ** The transform and its inverse *)

Lemma rotatePoint_back x y angle :
  (let '(x', y') := rotatePoint x y angle in rotatePoint x' y' (- angle))
  = (x, y).
Proof.
  unfold rotatePoint. rewrite cos_neg, sin_neg.
  pose proof (sin2_cos2 angle) as H. unfold Rsqr in H.
  f_equal.
  - replace (_ - _) with (x * (sin angle * sin angle + cos angle * cos angle))
      by ring.
    rewrite H. ring.
  - replace (_ + _) with (y * (sin angle * sin angle + cos angle * cos angle))
      by ring.
    rewrite H. ring.
Qed.

Lemma inverseTransformPoint_None lx ly sx sy rot :
  inverseTransformPoint lx ly sx sy rot = None <-> Rabs (1 - sx * sy) < 1e-10.
Proof.
  unfold inverseTransformPoint, rotatePoint. cbv zeta.
  destruct (Rltb (Rabs (1 - sx * sy)) 1e-10) eqn:E.
  - apply Rltb_true in E. tauto.
  - apply Rltb_false in E. split; [discriminate | lra].
Qed.

(** A corner handle of a box sits on the corner that carries its role. *)
Lemma handle_on_its_corner box h :
  In h (getHandlesFromBox box) -> includes (role h) "middle" = false ->
  (h_x h, h_y h) = cornerOfBox box (role h).
Proof.
  unfold getHandlesFromBox. cbv zeta.
  intros Hin Hmid. cbn [In] in Hin.
  repeat (destruct Hin as [<- | Hin]); cbn [role h_x h_y] in *;
    try (vm_compute in Hmid; discriminate); try reflexivity.
  destruct Hin.
Qed.

(** * The claims *)

(** C1.  A corner handle is pressed in resize-shear mode with the box shown,
    then the pointer moves any number of times.  The pressed handle sits on
    the corner of the box that carries its role.  The press stores as the
    anchor the corner that carries the opposite role, at its position on the
    box of the press.  After every move the anchor is still stored and the
    corner with the opposite role, on the sampled box of the new ellipse, is
    where it was at the press. *)
Theorem anchor_invariant (s : State) (mx my : R) (button : Z) (h : Handle)
    (moves : list (R * R)) :
  hasEllipse s = true -> showBoundingBox s = true -> editMode s = ResizeShear ->
  button <> 2%Z ->
  findHandleHit (getHandlesFromBox (getEllipseBoundingBox (ellipseData s)))
                mx my 6 = Some h ->
  includes (role h) "middle" = false ->
  let box := getEllipseBoundingBox (ellipseData s) in
  let opposite := oppositeRole (role h) in
  let start := cornerOfBox box opposite in
  let pressed := onMouseDown s mx my button in
  let moved := run pressed (moveEvents moves) in
  isCornerRole (role h) /\
  (h_x h, h_y h) = cornerOfBox box (role h) /\
  activeAnchor pressed
  = Some (mkAnchor (fst start) (snd start) (Some opposite)) /\
  activeAnchor moved = activeAnchor pressed /\
  cornerOfBox (getEllipseBoundingBox (ellipseData moved)) opposite = start /\
  getOppositeCornerScreenCoord
    (getEllipseBoundingBox (ellipseData moved)) (role h)
  = getOppositeCornerScreenCoord box (role h).
Proof.
  intros Hhas Hshow Hmode Hb Hhit Hmid box opposite start pressed moved.
  pose proof (findHandleHit_In _ _ _ _ _ Hhit) as Hin.
  assert (Hr : isCornerRole (role h))
    by (apply (corner_of_handles box); assumption).
  set (anchor := getOppositeCornerScreenCoord box (role h)).
  assert (Hanchor : anchor = mkAnchor (fst start) (snd start) (Some opposite)).
  { unfold anchor, start, opposite.
    apply getOppositeCornerScreenCoord_corner, Hr. }
  assert (Hp : pressed =
               mkState (isDrawing s) (set_activeHandle (Some h) (ellipseData s))
                       true true ResizeShear true (Some h) (mkPoint mx my)
                       (Some anchor)).
  { unfold pressed. rewrite (onMouseDown_hit s mx my button h Hb Hhas Hshow Hhit).
    rewrite Hmode, Hmid. reflexivity. }
  assert (Ha : a_role anchor = Some (oppositeRole (role h)))
    by (rewrite Hanchor; reflexivity).
  assert (Hdrag : cornerDrag (role h) anchor pressed).
  { rewrite Hp. unfold cornerDrag.
    cbn [hasEllipse isDragging dragHandle editMode activeAnchor].
    repeat split; eauto. }
  assert (Hbox : getOppositeCornerScreenCoord
                   (getEllipseBoundingBox (ellipseData pressed)) (role h)
                 = anchor).
  { rewrite Hp. cbn [ellipseData].
    rewrite getEllipseBoundingBox_activeHandle. reflexivity. }
  destruct (cornerDrag_moves (role h) anchor Hr Ha moves pressed Hdrag Hbox)
    as ((_ & _ & _ & _ & Hstored) & Hmoved).
  fold moved in Hstored, Hmoved.
  split; [exact Hr|].
  split; [apply (handle_on_its_corner box); assumption|].
  split; [rewrite Hp; cbn [activeAnchor]; rewrite Hanchor; reflexivity|].
  split; [rewrite Hstored, Hp; reflexivity|].
  split; [|exact Hmoved].
  rewrite getOppositeCornerScreenCoord_corner in Hmoved by exact Hr.
  rewrite Hanchor in Hmoved. fold opposite in Hmoved.
  injection Hmoved as Hx Hy.
  destruct (cornerOfBox (getEllipseBoundingBox (ellipseData moved)) opposite)
    as [x' y'].
  destruct start as [x0 y0]. cbn [fst snd] in Hx, Hy. subst. reflexivity.
Qed.

Lemma anchor_invariant_witness :
  let s := scenarioState in
  let box := getEllipseBoundingBox (ellipseData s) in
  let start := cornerOfBox box "top-left" in
  let pressed := onMouseDown s 150 130 0 in
  let moved := run pressed (moveEvents [(170, 130)]) in
  isCornerRole "bottom-right" /\
  (50 + 100, 70 + 60) = cornerOfBox box "bottom-right" /\
  activeAnchor pressed
  = Some (mkAnchor (fst start) (snd start) (Some "top-left"%string)) /\
  activeAnchor moved = activeAnchor pressed /\
  cornerOfBox (getEllipseBoundingBox (ellipseData moved)) "top-left" = start /\
  getOppositeCornerScreenCoord
    (getEllipseBoundingBox (ellipseData moved)) "bottom-right"
  = getOppositeCornerScreenCoord box "bottom-right".
Proof.
  apply (anchor_invariant scenarioState 150 130 0 scenarioHandle [(170, 130)]).
  - reflexivity.
  - reflexivity.
  - reflexivity.
  - discriminate.
  - exact scenario_hit.
  - reflexivity.
Defined.

(** C2, as stated, fails.  In the scenario the bottom-right handle is dragged
    from (150,130) to (170,130) against the anchor (50,70): the script sets
    the center to (120,100); the offset taken at the dragged corner's role
    is (-20,40), and (20,-40) with the difference the other way round. *)
Lemma resize_center_not_from_dragged_role :
  let pressed := onMouseDown scenarioState 150 130 0 in
  let e' := ellipseData (step pressed (MouseMove 170 130)) in
  let spec := specCenterFromDraggedCorner (radiusX e') (radiusY e') (shearX e')
                (shearY e') (rotation e') "bottom-right"
                (mkAnchor 50 70 (Some "top-left"%string)) in
  dragHandle pressed = Some scenarioHandle /\
  role scenarioHandle = "bottom-right"%string /\
  activeAnchor pressed = Some (mkAnchor 50 70 (Some "top-left"%string)) /\
  (centerX e', centerY e') = (120, 100) /\
  spec = (-20, 40) /\
  (centerX e', centerY e') <> spec /\
  (centerX e', centerY e') <> (- fst spec, - snd spec).
Proof.
  cbv zeta. rewrite scenario_pressed, scenario_moved.
  cbn [radiusX radiusY shearX shearY rotation centerX centerY].
  assert (Hspec : specCenterFromDraggedCorner 70 30 0 0 0 "bottom-right"
                    (mkAnchor 50 70 (Some "top-left"%string)) = (-20, 40)).
  { unfold specCenterFromDraggedCorner. cbv zeta.
    rewrite getEllipseBoundingBox_plain;
      cbn [rotation shearX shearY radiusX radiusY centerX centerY]; try lra.
    cbn [cornerOfBox String.eqb Ascii.eqb Bool.eqb box_x box_y width height
         fst snd a_x a_y].
    f_equal; lra. }
  rewrite Hspec. cbn [fst snd].
  repeat split; try reflexivity.
  - intros H. injection H as H1 H2. lra.
  - intros H. injection H as H1 H2. lra.
Qed.

(** C2, amended.  On a corner resize move the radii are updated and clamped,
    and the new center is the offset between the anchor and the position, on
    the zero-centered box of the new radii and the current shear and
    rotation, of the corner that carries the ANCHOR's role, which is the
    role opposite to the dragged corner's. *)
Theorem resize_center_from_anchor_role (s : State) (mx my : R) (h : Handle)
    (a : Anchor) :
  hasEllipse s = true -> isDragging s = true -> dragHandle s = Some h ->
  editMode s = ResizeShear -> isCornerRole (role h) ->
  activeAnchor s = Some a -> a_role a = Some (oppositeRole (role h)) ->
  let e := ellipseData s in
  let e' := ellipseData (step s (MouseMove mx my)) in
  let box :=
    getEllipseBoundingBox
      (mkEllipse 0 0 (radiusX e') (radiusY e') (rotation e) (shearX e)
                 (shearY e) None) in
  radiusX e' = resizedRadiusX s h mx /\
  radiusY e' = resizedRadiusY s h my /\
  centerX e' = a_x a - fst (cornerOfBox box (oppositeRole (role h))) /\
  centerY e' = a_y a - snd (cornerOfBox box (oppositeRole (role h))).
Proof.
  intros Hhas Hdrag Hh Hmode Hr Ha Hrole.
  assert (Hmid : includes (role h) "middle" = false)
    by (apply corner_not_middle, Hr).
  cbn [step].
  rewrite (onMouseMove_corner s mx my h a Hhas Hdrag Hh Hmode Hmid Ha).
  cbn [snd]. unfold set_lastMousePos, set_ellipseData. cbn [ellipseData].
  unfold resizedEllipse. cbv zeta.
  cbn [radiusX radiusY centerX centerY].
  rewrite Hrole.
  rewrite computeEllipseCenter_corner by (apply oppositeRole_corner, Hr).
  cbn [fst snd]. repeat split; reflexivity.
Qed.

Lemma resize_center_from_anchor_role_witness :
  let s := scenarioPressed in
  let e' := ellipseData (step s (MouseMove 170 130)) in
  let box :=
    getEllipseBoundingBox
      (mkEllipse 0 0 (radiusX e') (radiusY e') 0 0 0 None) in
  radiusX e' = resizedRadiusX s scenarioHandle 170 /\
  radiusY e' = resizedRadiusY s scenarioHandle 130 /\
  centerX e' = 50 - fst (cornerOfBox box "top-left") /\
  centerY e' = 70 - snd (cornerOfBox box "top-left").
Proof.
  apply (resize_center_from_anchor_role scenarioPressed 170 130 scenarioHandle
           (mkAnchor 50 70 (Some "top-left"%string))).
  - reflexivity.
  - reflexivity.
  - reflexivity.
  - reflexivity.
  - right. right. right. reflexivity.
  - reflexivity.
  - reflexivity.
Defined.

(** C3.  With a shear that is not degenerate, undoing the rotation and then
    the shear, as [isPointInEllipse] does, gives back the point that was
    sheared and then rotated, as [getEllipsePoints] does. *)
Theorem inverse_after_transform (shearX shearY rotation x y : R) :
  Rabs (1 - shearX * shearY) >= 1e-10 ->
  (let '(x', y') := transformPoint x y shearX shearY rotation in
   inverseTransformPoint x' y' shearX shearY rotation) = Some (x, y).
Proof.
  intros Hdet. unfold transformPoint, shearPoint.
  pose proof (rotatePoint_back (x + shearX * y) (y + shearY * x) rotation) as Hrot.
  destruct (rotatePoint (x + shearX * y) (y + shearY * x) rotation) as [x' y'].
  unfold inverseTransformPoint. rewrite Hrot. cbv zeta.
  assert (Hlt : Rltb (Rabs (1 - shearX * shearY)) 1e-10 = false)
    by (apply Rltb_false; lra).
  rewrite Hlt.
  assert (Hnz : 1 - shearX * shearY <> 0).
  { intros H0. rewrite H0, Rabs_R0 in Hdet. lra. }
  f_equal. f_equal; field; exact Hnz.
Qed.

Lemma inverse_after_transform_witness :
  (let '(x', y') := transformPoint 3 4 2 1 (PI / 2) in
   inverseTransformPoint x' y' 2 1 (PI / 2)) = Some (3, 4).
Proof.
  apply (inverse_after_transform 2 1 (PI / 2) 3 4).
  replace (1 - 2 * 1) with (- (1)) by lra.
  rewrite Rabs_Ropp, Rabs_R1. lra.
Defined.

(** C4, as stated, fails.  Press at (100,100), move to (103,102), press
    again: the shape is finalized with radii 3 and 2. *)
Lemma finalized_radii_below_floor :
  let s := run initialState
             [MouseDown 100 100 0; MouseMove 103 102; MouseDown 103 102 0] in
  hasEllipse s = true /\
  radiusX (ellipseData s) = 3 /\ radiusY (ellipseData s) = 2 /\
  ~ (radiusX (ellipseData s) >= 5) /\ ~ (radiusY (ellipseData s) >= 5).
Proof.
  assert (Hx : Rabs (103 - 100) = 3) by (rewrite Rabs_right; lra).
  assert (Hy : Rabs (102 - 100) = 2) by (rewrite Rabs_right; lra).
  cbv zeta. rewrite create_by_drag by (left; rewrite Hx; lra).
  cbn [hasEllipse ellipseData radiusX radiusY]. rewrite Hx, Hy.
  repeat split; lra.
Qed.

(** C4, amended.  In every reachable state with a finalized shape both radii
    are at least 0 and one of them is positive.  The second creation click
    does not clamp: it keeps the radii of the last creation move, or sets
    both to 10 when both are 0.  A corner resize move leaves both radii at
    least 5, and once both radii of a finalized shape are at least 5, every
    later event keeps them so. *)
Theorem radii_of_finalized_shape :
  (forall s, Reachable s -> hasEllipse s = true ->
     0 <= radiusX (ellipseData s) /\ 0 <= radiusY (ellipseData s) /\
     (0 < radiusX (ellipseData s) \/ 0 < radiusY (ellipseData s))) /\
  (forall s mx my button,
     button <> 2%Z -> hasEllipse s = false -> isDrawing s = true ->
     let e := ellipseData s in
     let s' := onMouseDown s mx my button in
     hasEllipse s' = true /\
     (radiusX (ellipseData s'), radiusY (ellipseData s')) =
     if Reqb (radiusX e) 0 && Reqb (radiusY e) 0 then (10, 10)
     else (radiusX e, radiusY e)) /\
  (forall s h mx my,
     hasEllipse s = true -> isDragging s = true -> dragHandle s = Some h ->
     editMode s = ResizeShear -> includes (role h) "middle" = false ->
     5 <= radiusX (ellipseData (step s (MouseMove mx my))) /\
     5 <= radiusY (ellipseData (step s (MouseMove mx my)))) /\
  (forall s ev,
     hasEllipse s = true ->
     5 <= radiusX (ellipseData s) -> 5 <= radiusY (ellipseData s) ->
     hasEllipse (step s ev) = true /\
     5 <= radiusX (ellipseData (step s ev)) /\
     5 <= radiusY (ellipseData (step s ev))).
Proof.
  split; [|split; [|split]].
  - intros s Hs Hhas. destruct (Reachable_radiiInv s Hs) as (Hpos & Hnz).
    destruct (Hpos (or_intror Hhas)). auto.
  - intros s mx my button Hb Hhas Hdr.
    cbv zeta. rewrite (onMouseDown_second s mx my button Hb Hhas Hdr).
    cbn [hasEllipse ellipseData]. split; [reflexivity|].
    destruct (Reqb (radiusX (ellipseData s)) 0
              && Reqb (radiusY (ellipseData s)) 0); reflexivity.
  - intros s h mx my Hhas Hdrag Hh Hmode Hmid.
    assert (Hs : cornerResizing h s) by (repeat split; assumption).
    destruct (cornerResizing_move h s mx my Hmid Hs) as (-> & -> & _).
    split; apply Rmax_l.
  - intros s ev Hhas Hx Hy.
    destruct s as [dr [cx cy rx ry rot sx sy ah] has sh m dg dh lp an].
    state_fields. subst has.
    destruct ev as [mx my button | mx my | |]; cbn [step].
    + unfold onMouseDown. cbv zeta. unfold_setters. cbn [negb].
      split_cases; unfold_setters; repeat split; assumption.
    + unfold onMouseMove. cbv zeta. unfold_setters. cbn [negb andb].
      pose proof (Rmax_l 5 (rx + -1 * (mx - pt_x lp))).
      pose proof (Rmax_l 5 (rx + 1 * (mx - pt_x lp))).
      pose proof (Rmax_l 5 (ry + -1 * (my - pt_y lp))).
      pose proof (Rmax_l 5 (ry + 1 * (my - pt_y lp))).
      split_cases; cbn [snd]; unfold_setters; repeat split; assumption.
    + unfold onMouseUp. unfold_setters. repeat split; assumption.
    + unfold onContextMenu. unfold_setters. repeat split; assumption.
Qed.

Lemma radii_of_finalized_shape_witness :
  0 <= radiusX (ellipseData scenarioState) /\
  0 <= radiusY (ellipseData scenarioState) /\
  (0 < radiusX (ellipseData scenarioState) \/
   0 < radiusY (ellipseData scenarioState)).
Proof.
  apply (proj1 radii_of_finalized_shape scenarioState).
  - exists [MouseDown 100 100 0; MouseMove 150 130; MouseDown 150 130 0].
    symmetry. exact scenario_created.
  - reflexivity.
Defined.

(** C5, as stated, fails.  After the scenario shape is created, a press on
    its bottom-right handle starts a drag; the release ends the drag and
    [ellipseData.activeHandle] still holds the handle. *)
Lemma active_handle_survives_mouse_up :
  let s := run initialState
             [MouseDown 100 100 0; MouseMove 150 130; MouseDown 150 130 0;
              MouseDown 150 130 0] in
  isDragging s = true /\
  isDragging (onMouseUp s) = false /\
  activeHandle (ellipseData (onMouseUp s)) = Some scenarioHandle /\
  activeHandle (ellipseData (onMouseUp s)) <> None.
Proof.
  cbv zeta.
  change [MouseDown 100 100 0; MouseMove 150 130; MouseDown 150 130 0;
          MouseDown 150 130 0]
    with ([MouseDown 100 100 0; MouseMove 150 130; MouseDown 150 130 0]
          ++ [MouseDown 150 130 0]).
  rewrite run_app, scenario_created. cbn [run fold_left step].
  rewrite scenario_pressed. repeat split. discriminate.
Qed.

(** C5, amended.  The pointer-up handler clears [isDragging], [dragHandle]
    and [activeAnchor] and writes nothing else: the shape, with its
    [activeHandle] field, the box visibility and the edit mode stay as they
    were.  In a reachable state with no drag in progress [dragHandle] and
    [activeAnchor] are null. *)
Theorem mouse_up_clears_drag (s : State) :
  onMouseUp s =
  mkState (isDrawing s) (ellipseData s) (hasEllipse s) (showBoundingBox s)
          (editMode s) false None (lastMousePos s) None
  /\ (Reachable s -> isDragging s = false ->
      dragHandle s = None /\ activeAnchor s = None).
Proof.
  split; [reflexivity|].
  intros Hs Hoff. apply Reachable_dragInv in Hs. apply Hs, Hoff.
Qed.

Lemma mouse_up_clears_drag_witness :
  dragHandle scenarioState = None /\ activeAnchor scenarioState = None.
Proof.
  apply (proj2 (mouse_up_clears_drag scenarioState)).
  - exists [MouseDown 100 100 0; MouseMove 150 130; MouseDown 150 130 0].
    symmetry. exact scenario_created.
  - reflexivity.
Defined.

(** C6.  With a degenerate shear, [|1 - shearX * shearY| < 1e-10], every
    point is reported outside; the function is total, it raises nothing.
    The early return is taken exactly below 1e-10. *)
Theorem degenerate_shear_is_outside (e : Ellipse) (mx my : R) :
  (Rabs (1 - shearX e * shearY e) < 1e-10 -> isPointInEllipse mx my e = false)
  /\ (inverseTransformPoint (mx - centerX e) (my - centerY e)
        (shearX e) (shearY e) (rotation e) = None
      <-> Rabs (1 - shearX e * shearY e) < 1e-10).
Proof.
  split; [|apply inverseTransformPoint_None].
  intros Hdet. unfold isPointInEllipse. cbv zeta.
  apply inverseTransformPoint_None
    with (lx := mx - centerX e) (ly := my - centerY e) (rot := rotation e)
    in Hdet.
  rewrite Hdet. reflexivity.
Qed.

Lemma degenerate_shear_is_outside_witness :
  isPointInEllipse 100 100 (mkEllipse 100 100 50 30 0 1 1 None) = false.
Proof.
  apply (degenerate_shear_is_outside (mkEllipse 100 100 50 30 0 1 1 None) 100 100).
  cbn [shearX shearY].
  replace (1 - 1 * 1) with 0 by lra. rewrite Rabs_R0. lra.
Defined.

(** C7.  While a corner handle is dragged in resize-shear mode, each move
    adds [signX * dx] to [radiusX] and [signY * dy] to [radiusY], with
    [signX = -1] when the role contains "left" and [signY = -1] when it
    contains "top", and clamps both at 5; so after any positive number of
    moves both radii are at least 5. *)
Theorem radius_floor_on_corner_drag (s : State) (h : Handle)
    (moves : list (R * R)) :
  hasEllipse s = true -> isDragging s = true -> dragHandle s = Some h ->
  editMode s = ResizeShear -> includes (role h) "middle" = false ->
  (forall mx my,
     let dx := mx - pt_x (lastMousePos s) in
     let dy := my - pt_y (lastMousePos s) in
     let signX := if includes (role h) "left" then -1 else 1 in
     let signY := if includes (role h) "top" then -1 else 1 in
     let e' := ellipseData (step s (MouseMove mx my)) in
     radiusX e' = Rmax 5 (radiusX (ellipseData s) + signX * dx) /\
     radiusY e' = Rmax 5 (radiusY (ellipseData s) + signY * dy)) /\
  (moves <> [] ->
   5 <= radiusX (ellipseData (run s (moveEvents moves))) /\
   5 <= radiusY (ellipseData (run s (moveEvents moves)))).
Proof.
  intros Hhas Hdrag Hh Hmode Hmid.
  assert (Hs : cornerResizing h s) by (repeat split; assumption).
  split.
  - intros mx my. cbv zeta.
    destruct (cornerResizing_move h s mx my Hmid Hs) as (Hx & Hy & _).
    split; assumption.
  - intros Hne. destruct (exists_last Hne) as (front & [mx my] & ->).
    unfold moveEvents. rewrite map_app, run_app. fold (moveEvents front).
    cbn [map run fold_left fst snd].
    pose proof (cornerResizing_moves h front s Hmid Hs) as Hs'.
    destruct (cornerResizing_move h _ mx my Hmid Hs') as (Hx & Hy & _).
    rewrite Hx, Hy. unfold resizedRadiusX, resizedRadiusY.
    split; apply Rmax_l.
Qed.

Lemma radius_floor_on_corner_drag_witness :
  let s := scenarioPressed in
  5 <= radiusX (ellipseData (run s (moveEvents [(120, 90); (0, 0)]))) /\
  5 <= radiusY (ellipseData (run s (moveEvents [(120, 90); (0, 0)]))).
Proof.
  apply (radius_floor_on_corner_drag scenarioPressed scenarioHandle
           [(120, 90); (0, 0)]).
  - reflexivity.
  - reflexivity.
  - reflexivity.
  - reflexivity.
  - reflexivity.
  - discriminate.
Defined.

(** C8.  The shape with center (100,100), radii 50 and 30, no rotation and
    no shear is sampled at 61 points, and the min/max scan of these points
    gives the box x = 50, y = 70, width = 100, height = 60. *)
Theorem scenario_bounding_box :
  let e := mkEllipse 100 100 50 30 0 0 0 None in
  List.length (getEllipsePoints e 60) = 61%nat /\
  (forall i, nth_error (getEllipsePoints e 60) i =
             if (i <=? 60)%nat then Some (samplePoint e 60 i) else None) /\
  boxOfExtent (scanPoints (getEllipsePoints e 60)) = Some (mkBox 50 70 100 60) /\
  getEllipseBoundingBox e = mkBox 50 70 100 60.
Proof.
  cbv zeta. split; [apply getEllipsePoints_length|]. split; [|split].
  - intros i. unfold getEllipsePoints. rewrite nth_error_map.
    destruct (Nat.leb_spec i 60) as [Hi|Hi].
    + rewrite (nth_error_nth' _ 0%nat) by (rewrite length_seq; lia).
      rewrite seq_nth by lia. reflexivity.
    + assert (H : nth_error (seq 0 61) i = None)
        by (apply nth_error_None; rewrite length_seq; lia).
      rewrite H. reflexivity.
  - rewrite getEllipseBoundingBox_scan. f_equal. exact (scenario_box None).
  - exact (scenario_box None).
Qed.

(** C9.  Whatever the parameters, the sampled box has a width and a height
    that are not negative: the scan takes a minimum and a maximum over the
    same 61 points. *)
Theorem bounding_box_size_nonneg (e : Ellipse) :
  0 <= width (getEllipseBoundingBox e) /\ 0 <= height (getEllipseBoundingBox e).
Proof.
  destruct (sample_extremes e)
    as (x0 & x1 & y0 & y1 & H0 & H1 & H2 & H3 & Hx & Hy).
  rewrite (getEllipseBoundingBox_minmax e _ _ _ _ H0 H1 H2 H3).
  cbn [width height]. lra.
Qed.

(** C10.  The context-menu handler writes [showBoundingBox] and nothing
    else, and a pointer move is handled after it as it would have been
    before it: a drag in progress goes on with the box hidden. *)
Theorem context_menu_only_hides (s : State) :
  onContextMenu s =
  mkState (isDrawing s) (ellipseData s) (hasEllipse s) false (editMode s)
          (isDragging s) (dragHandle s) (lastMousePos s) (activeAnchor s)
  /\ forall mx my,
       onMouseMove (onContextMenu s) mx my =
       (fst (onMouseMove s mx my), onContextMenu (snd (onMouseMove s mx my))).
Proof.
  split; [reflexivity|]. intros mx my. destruct s as [dr e has sh m dg dh lp an].
  unfold onMouseMove, onContextMenu, set_showBoundingBox.
  cbn [hasEllipse isDrawing ellipseData isDragging dragHandle editMode
       lastMousePos activeAnchor].
  repeat match goal with
  | |- context [if ?c then _ else _] => destruct c
  | |- context [match ?c with _ => _ end] => destruct c
  end; reflexivity.
Qed.

(** * Further properties of the script *)

(** ** The sampled box encloses the samples, tightly and symmetrically *)

Lemma In_sample_coordinate (f : Point -> R) e w :
  In w (map f (getEllipsePoints e 60)) <->
  exists i, (i <= 60)%nat /\ w = f (samplePoint e 60 i).
Proof.
  rewrite in_map_iff. split.
  - intros (pt & <- & Hpt). apply In_getEllipsePoints in Hpt.
    destruct Hpt as (i & Hi & ->). eauto.
  - intros (i & Hi & ->). exists (samplePoint e 60 i). split; [reflexivity|].
    apply In_getEllipsePoints. eauto.
Qed.

Lemma getEllipseBoundingBox_tight (e : Ellipse) :
  let box := getEllipseBoundingBox e in
  (exists i, (i <= 60)%nat /\ pt_x (samplePoint e 60 i) = box_x box) /\
  (exists i, (i <= 60)%nat /\ pt_x (samplePoint e 60 i) = box_x box + width box) /\
  (exists i, (i <= 60)%nat /\ pt_y (samplePoint e 60 i) = box_y box) /\
  (exists i, (i <= 60)%nat /\ pt_y (samplePoint e 60 i) = box_y box + height box) /\
  (forall pt, In pt (getEllipsePoints e 60) ->
     isPointInBox (pt_x pt) (pt_y pt) box = true).
Proof.
  cbv zeta.
  assert (Hne : exists p ps, getEllipsePoints e 60 = p :: ps)
    by (rewrite getEllipsePoints_cons; eauto).
  destruct Hne as (p & ps & Hpts).
  destruct (minOf_spec (pt_x p) (map pt_x ps)) as (x0 & Hx0 & Hx0in & Hx0le).
  destruct (maxOf_spec (pt_x p) (map pt_x ps)) as (x1 & Hx1 & Hx1in & Hx1le).
  destruct (minOf_spec (pt_y p) (map pt_y ps)) as (y0 & Hy0 & Hy0in & Hy0le).
  destruct (maxOf_spec (pt_y p) (map pt_y ps)) as (y1 & Hy1 & Hy1in & Hy1le).
  rewrite <- map_cons, <- Hpts in *.
  rewrite (getEllipseBoundingBox_minmax e x0 x1 y0 y1 Hx0 Hx1 Hy0 Hy1).
  cbn [box_x box_y width height].
  apply In_sample_coordinate in Hx0in, Hx1in, Hy0in, Hy1in.
  destruct Hx0in as (i0 & Hi0 & E0). destruct Hx1in as (i1 & Hi1 & E1).
  destruct Hy0in as (j0 & Hj0 & F0). destruct Hy1in as (j1 & Hj1 & F1).
  split; [exists i0; split; [exact Hi0 | lra]|].
  split; [exists i1; split; [exact Hi1 | lra]|].
  split; [exists j0; split; [exact Hj0 | lra]|].
  split; [exists j1; split; [exact Hj1 | lra]|].
  intros pt Hpt.
  pose proof (Hx0le _ (in_map pt_x _ _ Hpt)).
  pose proof (Hx1le _ (in_map pt_x _ _ Hpt)).
  pose proof (Hy0le _ (in_map pt_y _ _ Hpt)).
  pose proof (Hy1le _ (in_map pt_y _ _ Hpt)).
  unfold isPointInBox, Rgeb. cbn [box_x box_y width height].
  rewrite !andb_true_iff, !Rleb_true. lra.
Qed.

Lemma sample_angle_half_turn i :
  2 * PI * INR (i + 30) / INR 60 = 2 * PI * INR i / INR 60 + PI.
Proof.
  rewrite plus_INR, (INR_lit 30), (INR_lit 60).
  cbv [Z.of_nat Pos.of_succ_nat Pos.succ]. lra.
Qed.

(** The sample half a turn further is the mirror image through the center. *)
Lemma samplePoint_half_turn e i :
  pt_x (samplePoint e 60 (i + 30)) = 2 * centerX e - pt_x (samplePoint e 60 i) /\
  pt_y (samplePoint e 60 (i + 30)) = 2 * centerY e - pt_y (samplePoint e 60 i).
Proof.
  unfold samplePoint, shearPoint, rotatePoint. cbn [pt_x pt_y].
  rewrite sample_angle_half_turn, neg_cos, neg_sin. split; ring.
Qed.

Lemma sample_mirror e i :
  (i <= 60)%nat ->
  exists j, (j <= 60)%nat /\
    pt_x (samplePoint e 60 j) = 2 * centerX e - pt_x (samplePoint e 60 i) /\
    pt_y (samplePoint e 60 j) = 2 * centerY e - pt_y (samplePoint e 60 i).
Proof.
  intros Hi. destruct (Nat.le_gt_cases i 30) as [Hle | Hgt].
  - exists (i + 30)%nat. split; [lia | apply samplePoint_half_turn].
  - exists (i - 30)%nat. split; [lia|].
    destruct (samplePoint_half_turn e (i - 30)) as (Hx & Hy).
    replace (i - 30 + 30)%nat with i in Hx, Hy by lia. lra.
Qed.

Lemma getEllipseBoundingBox_center (e : Ellipse) :
  box_x (getEllipseBoundingBox e) + width (getEllipseBoundingBox e) / 2
  = centerX e /\
  box_y (getEllipseBoundingBox e) + height (getEllipseBoundingBox e) / 2
  = centerY e.
Proof.
  destruct (getEllipseBoundingBox_tight e)
    as ((i0 & Hi0 & E0) & (i1 & Hi1 & E1) & (j0 & Hj0 & F0) & (j1 & Hj1 & F1)
        & Hall).
  assert (Hin : forall i, (i <= 60)%nat ->
            box_x (getEllipseBoundingBox e) <= pt_x (samplePoint e 60 i)
              <= box_x (getEllipseBoundingBox e) + width (getEllipseBoundingBox e)
            /\ box_y (getEllipseBoundingBox e) <= pt_y (samplePoint e 60 i)
              <= box_y (getEllipseBoundingBox e) + height (getEllipseBoundingBox e)).
  { intros i Hi.
    assert (Hpt : In (samplePoint e 60 i) (getEllipsePoints e 60))
      by (apply In_getEllipsePoints; eauto).
    apply Hall in Hpt. unfold isPointInBox, Rgeb in Hpt.
    rewrite !andb_true_iff, !Rleb_true in Hpt. lra. }
  destruct (sample_mirror e i0 Hi0) as (k0 & Hk0 & Mx0 & _).
  destruct (sample_mirror e i1 Hi1) as (k1 & Hk1 & Mx1 & _).
  destruct (sample_mirror e j0 Hj0) as (l0 & Hl0 & _ & My0).
  destruct (sample_mirror e j1 Hj1) as (l1 & Hl1 & _ & My1).
  pose proof (Hin k0 Hk0). pose proof (Hin k1 Hk1).
  pose proof (Hin l0 Hl0). pose proof (Hin l1 Hl1).
  split; lra.
Qed.

(** X1.  The sampled box is centered on the center of the ellipse, whatever
    the radii, the rotation and the shear; [isPointInBox] accepts the
    center. *)
Theorem bounding_box_centered (e : Ellipse) :
  let box := getEllipseBoundingBox e in
  box_x box + width box / 2 = centerX e /\
  box_y box + height box / 2 = centerY e /\
  isPointInBox (centerX e) (centerY e) box = true.
Proof.
  cbv zeta. destruct (getEllipseBoundingBox_center e) as (Hx & Hy).
  destruct (sample_extremes e)
    as (x0 & x1 & y0 & y1 & H0 & H1 & H2 & H3 & Hxle & Hyle).
  rewrite (getEllipseBoundingBox_minmax e _ _ _ _ H0 H1 H2 H3) in *.
  cbn [box_x box_y width height] in *.
  split; [exact Hx|]. split; [exact Hy|].
  unfold isPointInBox, Rgeb. cbn [box_x box_y width height].
  rewrite !andb_true_iff, !Rleb_true. lra.
Qed.

(** X2.  The sampled box is the min/max box of the 61 samples: [x] and [y]
    are the least sample coordinates, [width] and [height] are the greatest
    minus the least, and each of the four is the coordinate of a sample. *)
Theorem bounding_box_encloses_samples (e : Ellipse) :
  let box := getEllipseBoundingBox e in
  exists i0 i1 j0 j1,
    (i0 <= 60)%nat /\ (i1 <= 60)%nat /\ (j0 <= 60)%nat /\ (j1 <= 60)%nat /\
    box_x box = pt_x (samplePoint e 60 i0) /\
    width box = pt_x (samplePoint e 60 i1) - pt_x (samplePoint e 60 i0) /\
    box_y box = pt_y (samplePoint e 60 j0) /\
    height box = pt_y (samplePoint e 60 j1) - pt_y (samplePoint e 60 j0) /\
    forall i, (i <= 60)%nat ->
      pt_x (samplePoint e 60 i0) <= pt_x (samplePoint e 60 i)
        <= pt_x (samplePoint e 60 i1) /\
      pt_y (samplePoint e 60 j0) <= pt_y (samplePoint e 60 i)
        <= pt_y (samplePoint e 60 j1).
Proof.
  cbv zeta.
  destruct (getEllipseBoundingBox_tight e)
    as ((i0 & Hi0 & E0) & (i1 & Hi1 & E1) & (j0 & Hj0 & F0) & (j1 & Hj1 & F1)
        & Hall).
  exists i0, i1, j0, j1. repeat (split; [assumption || lra|]).
  intros i Hi.
  assert (Hpt : In (samplePoint e 60 i) (getEllipsePoints e 60))
    by (apply In_getEllipsePoints; eauto).
  apply Hall in Hpt. unfold isPointInBox, Rgeb in Hpt.
  rewrite !andb_true_iff, !Rleb_true in Hpt. lra.
Qed.

(** ** The sample polygon *)

(** X3.  With at least one step the first and the last sample coincide: the
    sampled polygon is closed. *)
Theorem sample_polygon_closed (e : Ellipse) (steps : nat) :
  (0 < steps)%nat ->
  nth_error (getEllipsePoints e steps) 0 = Some (samplePoint e steps 0) /\
  nth_error (getEllipsePoints e steps) steps = Some (samplePoint e steps steps) /\
  samplePoint e steps steps = samplePoint e steps 0.
Proof.
  intros Hsteps. split; [reflexivity|]. split.
  - unfold getEllipsePoints. rewrite nth_error_map.
    rewrite (nth_error_nth' _ 0%nat) by (rewrite length_seq; lia).
    rewrite seq_nth by lia. reflexivity.
  - unfold samplePoint.
    assert (Hn : INR steps <> 0) by (apply not_0_INR; lia).
    replace (2 * PI * INR steps / INR steps) with (2 * PI) by (field; exact Hn).
    replace (2 * PI * INR 0 / INR steps) with 0
      by (cbn [INR]; field; exact Hn).
    rewrite cos_2PI, sin_2PI, cos_0, sin_0. reflexivity.
Qed.

Lemma sample_polygon_closed_witness :
  samplePoint (scenarioEllipse None) 60 60 = samplePoint (scenarioEllipse None) 60 0.
Proof.
  apply (sample_polygon_closed (scenarioEllipse None) 60). lia.
Defined.

(** X4.  Moving the center moves the sampled box by the same vector and
    keeps its width and height. *)
Theorem bounding_box_follows_center (e : Ellipse) (cx cy : R) :
  let box := getEllipseBoundingBox e in
  getEllipseBoundingBox (set_center cx cy e) =
  mkBox (box_x box + (cx - centerX e)) (box_y box + (cy - centerY e))
        (width box) (height box).
Proof.
  cbv zeta.
  assert (Hs0 : sameShape e (set_center 0 0 e)) by (repeat split).
  assert (Hs1 : sameShape (set_center cx cy e) (set_center 0 0 e))
    by (repeat split).
  rewrite (getEllipseBoundingBox_translate _ _ Hs1 eq_refl eq_refl).
  rewrite (getEllipseBoundingBox_translate e _ Hs0 eq_refl eq_refl).
  generalize (getEllipseBoundingBox (set_center 0 0 e)). intros b0.
  unfold set_center. cbn [box_x box_y width height centerX centerY].
  f_equal; ring.
Qed.

Lemma rotatePoint_full_turn x y angle :
  rotatePoint x y (angle + 2 * PI) = rotatePoint x y angle.
Proof.
  unfold rotatePoint. rewrite cos_plus, sin_plus, cos_2PI, sin_2PI.
  f_equal; ring.
Qed.

(** X5.  A full turn added to [rotation] changes no sample and so not the
    box: the angle may accumulate without wrap-around. *)
Theorem rotation_full_turn (e : Ellipse) (steps : nat) :
  getEllipsePoints (set_rotation (rotation e + 2 * PI) e) steps
  = getEllipsePoints e steps /\
  getEllipseBoundingBox (set_rotation (rotation e + 2 * PI) e)
  = getEllipseBoundingBox e.
Proof.
  assert (Hpts : forall n,
            getEllipsePoints (set_rotation (rotation e + 2 * PI) e) n
            = getEllipsePoints e n).
  { intros n. unfold getEllipsePoints. apply map_ext. intros i.
    unfold samplePoint, shearPoint, set_rotation.
    cbn [radiusX radiusY shearX shearY rotation centerX centerY].
    rewrite rotatePoint_full_turn. reflexivity. }
  split; [apply Hpts|].
  unfold getEllipseBoundingBox. cbv zeta. rewrite Hpts. reflexivity.
Qed.

(** ** Point in ellipse *)

Lemma inverseTransformPoint_transformPoint sx sy rot x y :
  Rabs (1 - sx * sy) >= 1e-10 ->
  inverseTransformPoint (fst (transformPoint x y sx sy rot))
                        (snd (transformPoint x y sx sy rot)) sx sy rot
  = Some (x, y).
Proof.
  intros Hdet. unfold transformPoint, shearPoint.
  pose proof (rotatePoint_back (x + sx * y) (y + sy * x) rot) as Hrot.
  destruct (rotatePoint (x + sx * y) (y + sy * x) rot) as [x' y'].
  cbn [fst snd]. unfold inverseTransformPoint. rewrite Hrot. cbv zeta.
  assert (Hlt : Rltb (Rabs (1 - sx * sy)) 1e-10 = false)
    by (apply Rltb_false; lra).
  rewrite Hlt.
  assert (Hnz : 1 - sx * sy <> 0).
  { intros H0. rewrite H0, Rabs_R0 in Hdet. lra. }
  f_equal. f_equal; field; exact Hnz.
Qed.

Lemma samplePoint_transformPoint e steps i :
  let t := 2 * PI * INR i / INR steps in
  let p := transformPoint (radiusX e * cos t) (radiusY e * sin t)
                          (shearX e) (shearY e) (rotation e) in
  samplePoint e steps i = mkPoint (fst p + centerX e) (snd p + centerY e).
Proof. reflexivity. Qed.

Lemma squared_radius_nonzero r : r <> 0 -> Reqb (r * r) 0 = false.
Proof. intros Hr. apply Reqb_false. nra. Qed.

(** X6.  With a shear that is not degenerate and radii that are not zero, the
    image of a local point [(x, y)] under shear, rotation and translation is
    reported inside exactly when [x²/radiusX² + y²/radiusY² <= 1]. *)
Theorem point_in_ellipse_local_test (e : Ellipse) (x y : R) :
  Rabs (1 - shearX e * shearY e) >= 1e-10 ->
  radiusX e <> 0 -> radiusY e <> 0 ->
  let p := transformPoint x y (shearX e) (shearY e) (rotation e) in
  isPointInEllipse (fst p + centerX e) (snd p + centerY e) e
  = Rleb (x * x / (radiusX e * radiusX e) + y * y / (radiusY e * radiusY e)) 1.
Proof.
  intros Hdet Hrx Hry p. unfold isPointInEllipse. cbv zeta.
  replace (fst p + centerX e - centerX e) with (fst p) by ring.
  replace (snd p + centerY e - centerY e) with (snd p) by ring.
  unfold p. rewrite inverseTransformPoint_transformPoint by exact Hdet.
  rewrite (squared_radius_nonzero _ Hrx), (squared_radius_nonzero _ Hry).
  reflexivity.
Qed.

Lemma point_in_ellipse_local_test_witness :
  let e := mkEllipse 100 100 50 30 (PI / 2) 2 1 None in
  let p := transformPoint 3 4 2 1 (PI / 2) in
  isPointInEllipse (fst p + 100) (snd p + 100) e
  = Rleb (3 * 3 / (50 * 50) + 4 * 4 / (30 * 30)) 1.
Proof.
  apply (point_in_ellipse_local_test (mkEllipse 100 100 50 30 (PI / 2) 2 1 None) 3 4);
    cbn [shearX shearY radiusX radiusY]; try lra.
  replace (1 - 2 * 1) with (- (1)) by lra.
  rewrite Rabs_Ropp, Rabs_R1. lra.
Defined.

(** X7.  With a shear that is not degenerate and radii that are not zero,
    undoing rotation and shear on a sample of the outline, taken relative to
    the center, gives back its local point [(radiusX cos t, radiusY sin t)],
    for which [x²/radiusX² + y²/radiusY²] is exactly 1: the samples lie on
    the boundary of the test [val <= 1].  The center is reported inside. *)
Theorem samples_on_outline (e : Ellipse) (steps i : nat) :
  Rabs (1 - shearX e * shearY e) >= 1e-10 ->
  radiusX e <> 0 -> radiusY e <> 0 ->
  let t := 2 * PI * INR i / INR steps in
  let x := radiusX e * cos t in
  let y := radiusY e * sin t in
  inverseTransformPoint (pt_x (samplePoint e steps i) - centerX e)
                        (pt_y (samplePoint e steps i) - centerY e)
                        (shearX e) (shearY e) (rotation e) = Some (x, y) /\
  x * x / (radiusX e * radiusX e) + y * y / (radiusY e * radiusY e) = 1 /\
  isPointInEllipse (centerX e) (centerY e) e = true.
Proof.
  intros Hdet Hrx Hry. cbv zeta. split; [|split].
  - rewrite samplePoint_transformPoint. cbv zeta. cbn [pt_x pt_y].
    set (t := 2 * PI * INR i / INR steps).
    set (p := transformPoint _ _ _ _ _).
    replace (fst p + centerX e - centerX e) with (fst p) by ring.
    replace (snd p + centerY e - centerY e) with (snd p) by ring.
    unfold p. apply inverseTransformPoint_transformPoint. exact Hdet.
  - set (t := 2 * PI * INR i / INR steps).
    pose proof (sin2_cos2 t) as Ht. unfold Rsqr in Ht.
    replace (radiusX e * cos t * (radiusX e * cos t) / (radiusX e * radiusX e)
             + radiusY e * sin t * (radiusY e * sin t) / (radiusY e * radiusY e))
      with (sin t * sin t + cos t * cos t) by (field; split; assumption).
    exact Ht.
  - unfold isPointInEllipse. cbv zeta.
    replace (centerX e - centerX e) with 0 by ring.
    replace (centerY e - centerY e) with 0 by ring.
    pose proof (inverseTransformPoint_transformPoint (shearX e) (shearY e)
                  (rotation e) 0 0 Hdet) as Hinv.
    unfold transformPoint, shearPoint, rotatePoint in Hinv. cbn [fst snd] in Hinv.
    replace ((0 + shearX e * 0) * cos (rotation e)
             - (0 + shearY e * 0) * sin (rotation e)) with 0 in Hinv by ring.
    replace ((0 + shearX e * 0) * sin (rotation e)
             + (0 + shearY e * 0) * cos (rotation e)) with 0 in Hinv by ring.
    rewrite Hinv.
    rewrite (squared_radius_nonzero _ Hrx), (squared_radius_nonzero _ Hry).
    cbn [orb]. apply Rleb_true.
    replace (0 * 0 / (radiusX e * radiusX e) + 0 * 0 / (radiusY e * radiusY e))
      with 0 by (field; split; assumption).
    lra.
Qed.

Lemma samples_on_outline_witness :
  let e := mkEllipse 100 100 50 30 (PI / 2) 2 1 None in
  let t := 2 * PI * INR 7 / INR 60 in
  inverseTransformPoint (pt_x (samplePoint e 60 7) - 100)
                        (pt_y (samplePoint e 60 7) - 100) 2 1 (PI / 2)
  = Some (50 * cos t, 30 * sin t) /\
  50 * cos t * (50 * cos t) / (50 * 50) + 30 * sin t * (30 * sin t) / (30 * 30) = 1
  /\ isPointInEllipse 100 100 e = true.
Proof.
  apply (samples_on_outline (mkEllipse 100 100 50 30 (PI / 2) 2 1 None) 60 7);
    cbn [shearX shearY radiusX radiusY]; try lra.
  replace (1 - 2 * 1) with (- (1)) by lra.
  rewrite Rabs_Ropp, Rabs_R1. lra.
Defined.

Lemma isPointInEllipse_zero_radius (e : Ellipse) (mx my : R) :
  radiusX e = 0 \/ radiusY e = 0 -> isPointInEllipse mx my e = false.
Proof.
  intros Hzero. unfold isPointInEllipse. cbv zeta.
  destruct (inverseTransformPoint _ _ _ _ _) as [[lx ly]|]; [|reflexivity].
  assert (Hz : Reqb (radiusX e * radiusX e) 0 || Reqb (radiusY e * radiusY e) 0
               = true).
  { apply orb_true_iff.
    destruct Hzero as [H | H]; [left | right]; apply Reqb_true; rewrite H; ring. }
  rewrite Hz. reflexivity.
Qed.

(** ** Handles *)

Lemma find_first {A} (f : A -> bool) (l : list A) :
  match find f l with
  | Some x => exists before after,
                l = before ++ x :: after /\ f x = true /\
                forall y, In y before -> f y = false
  | None => forall y, In y l -> f y = false
  end.
Proof.
  induction l as [|a l IH]; cbn [find].
  - intros y [].
  - destruct (f a) eqn:Ea.
    + exists [], l. repeat split; auto. intros y [].
    + destruct (find f l) as [x|].
      * destruct IH as (before & after & -> & Hx & Hbefore).
        exists (a :: before), after. repeat split; auto.
        intros y [<- | Hy]; auto.
      * intros y [<- | Hy]; auto.
Qed.

(** X9.  [findHandleHit] returns the first handle, in the order of the list,
    whose squared distance to the pointer is at most [radius²]; it returns
    [null] exactly when every handle is further away. *)
Theorem findHandleHit_first (handles : list Handle) (mx my radius : R) :
  let near h :=
    (mx - h_x h) * (mx - h_x h) + (my - h_y h) * (my - h_y h) <= radius * radius in
  match findHandleHit handles mx my radius with
  | Some h => exists before after,
                handles = before ++ h :: after /\ near h /\
                forall h', In h' before -> ~ near h'
  | None => forall h, In h handles -> ~ near h
  end.
Proof.
  cbv zeta. unfold findHandleHit.
  pose proof (find_first
    (fun handle => let dx := mx - h_x handle in let dy := my - h_y handle in
                   Rleb (dx * dx + dy * dy) (radius * radius)) handles) as H.
  cbv zeta in *.
  destruct (find _ handles) as [h|].
  - destruct H as (before & after & -> & Hh & Hbefore).
    exists before, after. split; [reflexivity|]. split.
    + apply Rleb_true, Hh.
    + intros h' Hin Hnear. apply Hbefore in Hin. apply Rleb_false in Hin. lra.
  - intros h Hin Hnear. apply H in Hin. apply Rleb_false in Hin. lra.
Qed.

(** X10.  On a box more than 12 wide and more than 12 high a press exactly on
    a handle grabs that handle. *)
Theorem press_on_handle_grabs_it (box : Box) (h : Handle) :
  12 < width box -> 12 < height box ->
  In h (getHandlesFromBox box) ->
  findHandleHit (getHandlesFromBox box) (h_x h) (h_y h) 6 = Some h.
Proof.
  destruct box as [x y w ht]. cbn [width height]. intros Hw Hh.
  unfold getHandlesFromBox. cbv zeta. cbn [box_x box_y width height In].
  intros Hin.
  repeat (destruct Hin as [<- | Hin]); [..|destruct Hin];
    unfold findHandleHit; cbn [find h_x h_y]; decide_cmp_nra; reflexivity.
Qed.

Lemma press_on_handle_grabs_it_witness :
  findHandleHit (getHandlesFromBox (mkBox 50 70 100 60)) (50 + 100 / 2) 70 6
  = Some (mkHandle (50 + 100 / 2) 70 "top-middle").
Proof.
  apply (press_on_handle_grabs_it (mkBox 50 70 100 60)
           (mkHandle (50 + 100 / 2) 70 "top-middle")).
  - cbn [width]. lra.
  - cbn [height]. lra.
  - unfold getHandlesFromBox. cbv zeta. cbn [box_x box_y width height In].
    right. right. right. right. left. reflexivity.
Defined.

(** X11.  On a box at most 12 wide, with a width that is not negative, a
    press exactly on the top-middle handle is taken by the top-left handle,
    which comes first in the list. *)
Theorem narrow_box_top_middle_shadowed (box : Box) :
  0 <= width box <= 12 ->
  findHandleHit (getHandlesFromBox box) (box_x box + width box / 2) (box_y box) 6
  = Some (mkHandle (box_x box) (box_y box) "top-left").
Proof.
  destruct box as [x y w ht]. cbn [width box_x box_y]. intros Hw.
  unfold getHandlesFromBox, findHandleHit. cbv zeta.
  cbn [box_x box_y width height find h_x h_y].
  decide_cmp_nra. reflexivity.
Qed.

Lemma narrow_box_top_middle_shadowed_witness :
  findHandleHit (getHandlesFromBox (mkBox 95 95 10 10)) (95 + 10 / 2) 95 6
  = Some (mkHandle 95 95 "top-left").
Proof.
  apply (narrow_box_top_middle_shadowed (mkBox 95 95 10 10)).
  cbn [width]. lra.
Defined.

Lemma oppositeRole_involutive r :
  isCornerRole r -> oppositeRole (oppositeRole r) = r.
Proof. intros [-> | [-> | [-> | ->]]]; reflexivity. Qed.

(** X12.  For a corner role the anchor returned by
    [getOppositeCornerScreenCoord] is a handle of the same box, the one whose
    role it carries; taking the opposite of that role leads back to a handle
    with the first role. *)
Theorem opposite_corner_is_a_handle (box : Box) (r : string) :
  isCornerRole r ->
  let a := getOppositeCornerScreenCoord box r in
  exists r',
    a_role a = Some r' /\ isCornerRole r' /\
    In (mkHandle (a_x a) (a_y a) r') (getHandlesFromBox box) /\
    a_role (getOppositeCornerScreenCoord box r') = Some r /\
    In (mkHandle (a_x (getOppositeCornerScreenCoord box r'))
                 (a_y (getOppositeCornerScreenCoord box r')) r)
       (getHandlesFromBox box).
Proof.
  intros Hr. cbv zeta. unfold getHandlesFromBox. cbv zeta.
  destruct Hr as [-> | [-> | [-> | ->]]];
    cbn [getOppositeCornerScreenCoord String.eqb Ascii.eqb Bool.eqb
         a_role a_x a_y].
  - exists "bottom-right"%string. unfold isCornerRole.
    cbn [getOppositeCornerScreenCoord String.eqb Ascii.eqb Bool.eqb
         a_role a_x a_y In]. intuition.
  - exists "bottom-left"%string. unfold isCornerRole.
    cbn [getOppositeCornerScreenCoord String.eqb Ascii.eqb Bool.eqb
         a_role a_x a_y In]. intuition.
  - exists "top-right"%string. unfold isCornerRole.
    cbn [getOppositeCornerScreenCoord String.eqb Ascii.eqb Bool.eqb
         a_role a_x a_y In]. intuition.
  - exists "top-left"%string. unfold isCornerRole.
    cbn [getOppositeCornerScreenCoord String.eqb Ascii.eqb Bool.eqb
         a_role a_x a_y In]. intuition.
Qed.

Lemma opposite_corner_is_a_handle_witness :
  exists r',
    a_role (getOppositeCornerScreenCoord (mkBox 50 70 100 60) "top-left") = Some r'
    /\ isCornerRole r' /\
    In (mkHandle (a_x (getOppositeCornerScreenCoord (mkBox 50 70 100 60) "top-left"))
                 (a_y (getOppositeCornerScreenCoord (mkBox 50 70 100 60) "top-left"))
                 r')
       (getHandlesFromBox (mkBox 50 70 100 60)) /\
    a_role (getOppositeCornerScreenCoord (mkBox 50 70 100 60) r')
    = Some "top-left"%string /\
    In (mkHandle (a_x (getOppositeCornerScreenCoord (mkBox 50 70 100 60) r'))
                 (a_y (getOppositeCornerScreenCoord (mkBox 50 70 100 60) r'))
                 "top-left")
       (getHandlesFromBox (mkBox 50 70 100 60)).
Proof.
  apply (opposite_corner_is_a_handle (mkBox 50 70 100 60) "top-left").
  left. reflexivity.
Defined.

(** ** A hidden shape that cannot be shown again *)

(** X13.  A finalized shape that is hidden, is not being dragged, and has a
    zero radius or a degenerate shear stays hidden and unchanged under every
    sequence of events: no press is inside it. *)
Theorem hidden_empty_shape_stays_hidden (s : State) (evs : list Event) :
  hasEllipse s = true -> showBoundingBox s = false -> isDragging s = false ->
  radiusX (ellipseData s) = 0 \/ radiusY (ellipseData s) = 0 \/
  Rabs (1 - shearX (ellipseData s) * shearY (ellipseData s)) < 1e-10 ->
  showBoundingBox (run s evs) = false /\
  ellipseData (run s evs) = ellipseData s /\
  isDragging (run s evs) = false.
Proof.
  intros Hhas Hshow Hdrag Hempty.
  assert (Hout : forall mx my, isPointInEllipse mx my (ellipseData s) = false).
  { intros mx my. destruct Hempty as [H | [H | H]].
    - apply isPointInEllipse_zero_radius. auto.
    - apply isPointInEllipse_zero_radius. auto.
    - unfold isPointInEllipse. cbv zeta.
      apply inverseTransformPoint_None
        with (lx := mx - centerX (ellipseData s))
             (ly := my - centerY (ellipseData s))
             (rot := rotation (ellipseData s)) in H.
      rewrite H. reflexivity. }
  set (P := fun s' : State =>
              hasEllipse s' = true /\ showBoundingBox s' = false /\
              isDragging s' = false /\ ellipseData s' = ellipseData s).
  assert (Hstep : forall s' ev, P s' -> P (step s' ev)).
  { intros s' ev (H1 & H2 & H3 & H4). unfold P.
    destruct s' as [dr e has sh m dg dh lp an]. state_fields. subst has sh dg e.
    destruct ev as [mx my button | mx my | |]; cbn [step].
    - unfold onMouseDown. cbv zeta. unfold_setters. cbn [negb].
      rewrite Hout. destruct (button =? 2)%Z; unfold_setters; auto.
    - unfold onMouseMove. unfold_setters. cbn [negb andb snd]. unfold_setters. auto.
    - unfold onMouseUp. unfold_setters. auto.
    - unfold onContextMenu. unfold_setters. auto. }
  assert (HP : P (run s evs)).
  { apply (run_invariant P Hstep). unfold P. auto. }
  destruct HP as (_ & H2 & H3 & H4). auto.
Qed.

(** A hidden shape with a zero radius is reached by a press, a vertical
    move, a press and the context menu. *)
Lemma zero_radius_shape_reachable :
  Reachable (mkState false (mkEllipse 100 100 0 50 0 0 0 None) true false
                     ResizeShear false None (mkPoint 100 150) None).
Proof.
  exists ([MouseDown 100 100 0; MouseMove 100 150; MouseDown 100 150 0]
          ++ [ContextMenu]).
  rewrite run_app.
  assert (Hx : Rabs (100 - 100) = 0)
    by (replace (100 - 100) with 0 by lra; apply Rabs_R0).
  assert (Hy : Rabs (150 - 100) = 50) by (rewrite Rabs_right; lra).
  rewrite create_by_drag by (right; rewrite Hy; lra).
  rewrite Hx, Hy. reflexivity.
Qed.

Lemma hidden_empty_shape_stays_hidden_witness :
  let s := mkState false (mkEllipse 100 100 0 50 0 0 0 None) true false
                   ResizeShear false None (mkPoint 100 150) None in
  let evs := [MouseDown 100 120 0; MouseMove 90 90; MouseUp] in
  Reachable s /\
  showBoundingBox (run s evs) = false /\
  ellipseData (run s evs) = ellipseData s /\
  isDragging (run s evs) = false.
Proof.
  split; [exact zero_radius_shape_reachable|].
  apply (hidden_empty_shape_stays_hidden
           (mkState false (mkEllipse 100 100 0 50 0 0 0 None) true false
                    ResizeShear false None (mkPoint 100 150) None)
           [MouseDown 100 120 0; MouseMove 90 90; MouseUp]).
  - reflexivity.
  - reflexivity.
  - reflexivity.
  - left. reflexivity.
Defined.

(** ** Rotate and shear drags *)

Lemma lastMove_cons m moves start :
  lastMove (m :: moves) start = lastMove moves (mkPoint (fst m) (snd m)).
Proof.
  unfold lastMove. cbn [pt_x pt_y].
  revert m. induction moves as [|m' moves IH]; intros m; [reflexivity|].
  change (last (m :: m' :: moves) (pt_x start, pt_y start))
    with (last (m' :: moves) (pt_x start, pt_y start)).
  rewrite IH.
  change (last (m' :: moves) (fst m, snd m)) with
    (match moves with [] => m' | _ => last moves (fst m, snd m) end).
  destruct moves as [|m'' moves]; [reflexivity|].
  specialize (IH m'). 
  assert (H : forall d d', last (m'' :: moves) d = last (m'' :: moves) d').
  { clear. revert m''. induction moves as [|a l IH]; intros m'' d d'; [reflexivity|].
    change (last (m'' :: a :: l) d) with (last (a :: l) d).
    change (last (m'' :: a :: l) d') with (last (a :: l) d'). apply IH. }
  rewrite (H (fst m', snd m') (fst m, snd m)). reflexivity.
Qed.

Lemma onMouseMove_rotate s mx my :
  rotating s ->
  onMouseMove s mx my =
  (Normal,
   set_lastMousePos (mkPoint mx my)
     (set_ellipseData
        (set_rotation (rotation (ellipseData s)
                       + (mx - pt_x (lastMousePos s)) * 0.01) (ellipseData s))
        s)).
Proof.
  intros (Hhas & Hdrag & Hh & Hmode). unfold onMouseMove.
  rewrite Hhas, Hdrag, Hmode. destruct (dragHandle s); [|congruence].
  reflexivity.
Qed.

Lemma rotating_moves moves : forall s,
  rotating s ->
  let s' := run s (moveEvents moves) in
  rotating s' /\
  lastMousePos s' = lastMove moves (lastMousePos s) /\
  ellipseData s' =
  set_rotation (rotation (ellipseData s)
                + (pt_x (lastMove moves (lastMousePos s)) - pt_x (lastMousePos s))
                  * 0.01) (ellipseData s) /\
  activeAnchor s' = activeAnchor s /\ showBoundingBox s' = showBoundingBox s.
Proof.
  induction moves as [|[mx my] moves IH]; intros s Hs; cbv zeta.
  - cbn [moveEvents map run fold_left]. unfold lastMove. cbn [last fst snd].
    destruct s as [dr [cx cy rx ry rot sx sy ah] has sh m dg dh [lx ly] an].
    cbn [lastMousePos ellipseData pt_x pt_y rotation set_rotation].
    repeat split; try apply Hs. f_equal; ring.
  - cbn [moveEvents map run fold_left fst snd step].
    rewrite (onMouseMove_rotate s mx my Hs). cbn [snd].
    set (s1 := set_lastMousePos _ _).
    assert (Hs1 : rotating s1).
    { destruct Hs as (H1 & H2 & H3 & H4).
      destruct s as [dr e has sh m dg dh lp an]. unfold s1. unfold_setters.
      repeat split; assumption. }
    specialize (IH s1 Hs1). cbv zeta in IH.
    fold (moveEvents moves). fold (run s1 (moveEvents moves)).
    destruct IH as (Hr & Hlast & He & Ha & Hsh).
    rewrite lastMove_cons. cbn [fst snd].
    split; [exact Hr|]. rewrite Hlast, He, Ha, Hsh.
    destruct s as [dr [cx cy rx ry rot sx sy ah] has sh m dg dh [lx ly] an].
    unfold s1. unfold_setters. cbn [pt_x pt_y].
    repeat split. f_equal; ring.
Qed.

(** X14.  A handle is pressed in rotate mode with the box shown, then the
    pointer moves.  The anchor is the center; the rotation grows by 0.01
    times the net horizontal displacement since the press, whatever the path;
    center, radii and shear stay, and the box stays centered on the anchor. *)
Theorem rotate_drag_net_displacement (s : State) (mx my : R) (button : Z)
    (h : Handle) (moves : list (R * R)) :
  hasEllipse s = true -> showBoundingBox s = true -> editMode s = Rotate ->
  button <> 2%Z ->
  findHandleHit (getHandlesFromBox (getEllipseBoundingBox (ellipseData s)))
                mx my 6 = Some h ->
  let e := ellipseData s in
  let pressed := onMouseDown s mx my button in
  let moved := run pressed (moveEvents moves) in
  let e' := ellipseData moved in
  let box' := getEllipseBoundingBox e' in
  activeAnchor moved = Some (mkAnchor (centerX e) (centerY e) None) /\
  rotation e' = rotation e + (pt_x (lastMove moves (mkPoint mx my)) - mx) * 0.01 /\
  centerX e' = centerX e /\ centerY e' = centerY e /\
  radiusX e' = radiusX e /\ radiusY e' = radiusY e /\
  shearX e' = shearX e /\ shearY e' = shearY e /\
  box_x box' + width box' / 2 = centerX e /\
  box_y box' + height box' / 2 = centerY e.
Proof.
  intros Hhas Hshow Hmode Hb Hhit. cbv zeta.
  rewrite (onMouseDown_hit s mx my button h Hb Hhas Hshow Hhit). rewrite Hmode.
  set (pressed := mkState _ _ _ _ _ _ _ _ _).
  assert (Hp : rotating pressed).
  { unfold pressed, rotating. cbn [hasEllipse isDragging dragHandle editMode].
    repeat split; congruence. }
  destruct (rotating_moves moves pressed Hp) as (_ & _ & He & Ha & _).
  destruct (getEllipseBoundingBox_center (ellipseData (run pressed (moveEvents moves))))
    as (Hcx & Hcy).
  rewrite Hcx, Hcy, He, Ha. unfold pressed.
  destruct s as [dr [cx cy rx ry rot sx sy ah] has sh m dg dh lp an].
  cbn [activeAnchor ellipseData lastMousePos set_activeHandle set_rotation
       centerX centerY radiusX radiusY rotation shearX shearY pt_x].
  repeat split.
Qed.

Lemma rotate_drag_net_displacement_witness :
  let s := mkState false (scenarioEllipse None) true true Rotate false None
                   (mkPoint 150 130) None in
  let moved := run (onMouseDown s 150 130 0)
                   (moveEvents [(170, 140); (130, 90); (160, 130)]) in
  rotation (ellipseData moved) = 0 + (160 - 150) * 0.01 /\
  centerX (ellipseData moved) = 100 /\ centerY (ellipseData moved) = 100.
Proof.
  pose proof (rotate_drag_net_displacement
                (mkState false (scenarioEllipse None) true true Rotate false None
                         (mkPoint 150 130) None)
                150 130 0 scenarioHandle [(170, 140); (130, 90); (160, 130)]
                eq_refl eq_refl eq_refl) as H.
  cbv zeta in H.
  destruct H as (_ & Hrot & Hcx & Hcy & _).
  - discriminate.
  - exact scenario_hit.
  - cbv zeta. repeat split; assumption.
Defined.

Lemma onMouseMove_shear h s mx my :
  shearing h s ->
  onMouseMove s mx my =
  (Normal,
   set_lastMousePos (mkPoint mx my)
     (set_ellipseData
        (shearedBy h (mx - pt_x (lastMousePos s)) (my - pt_y (lastMousePos s))
                   (ellipseData s)) s)).
Proof.
  intros (Hhas & Hdrag & Hh & Hmode & Hmid). unfold onMouseMove.
  rewrite Hhas, Hdrag, Hh, Hmode, Hmid. reflexivity.
Qed.

Lemma shearing_moves h moves : forall s,
  shearing h s ->
  let s' := run s (moveEvents moves) in
  shearing h s' /\
  lastMousePos s' = lastMove moves (lastMousePos s) /\
  ellipseData s' =
  shearedBy h (pt_x (lastMove moves (lastMousePos s)) - pt_x (lastMousePos s))
              (pt_y (lastMove moves (lastMousePos s)) - pt_y (lastMousePos s))
              (ellipseData s) /\
  activeAnchor s' = activeAnchor s /\ showBoundingBox s' = showBoundingBox s.
Proof.
  induction moves as [|[mx my] moves IH]; intros s Hs; cbv zeta.
  - cbn [moveEvents map run fold_left]. unfold lastMove. cbn [last fst snd].
    destruct s as [dr [cx cy rx ry rot sx sy ah] has sh m dg dh [lx ly] an].
    cbn [lastMousePos ellipseData pt_x pt_y]. unfold shearedBy.
    repeat split; try apply Hs.
    destruct (shearsAlongX h); cbn [set_shearX set_shearY shearX shearY];
      f_equal; ring.
  - cbn [moveEvents map run fold_left fst snd step].
    rewrite (onMouseMove_shear h s mx my Hs). cbn [snd].
    set (s1 := set_lastMousePos _ _).
    assert (Hs1 : shearing h s1).
    { destruct Hs as (H1 & H2 & H3 & H4 & H5).
      destruct s as [dr e has sh m dg dh lp an]. unfold s1. unfold_setters.
      repeat split; assumption. }
    specialize (IH s1 Hs1). cbv zeta in IH.
    fold (moveEvents moves). fold (run s1 (moveEvents moves)).
    destruct IH as (Hr & Hlast & He & Ha & Hsh).
    rewrite lastMove_cons. cbn [fst snd].
    split; [exact Hr|]. rewrite Hlast, He, Ha, Hsh.
    destruct s as [dr [cx cy rx ry rot sx sy ah] has sh m dg dh [lx ly] an].
    unfold s1. unfold_setters. cbn [pt_x pt_y]. unfold shearedBy.
    repeat split.
    destruct (shearsAlongX h); cbn [set_shearX set_shearY shearX shearY];
      f_equal; ring.
Qed.

(** X15.  A mid-side handle is pressed in resize-shear mode with the box
    shown, then the pointer moves.  The anchor is the center.  A top or
    bottom handle changes [shearX] alone, by 0.01 times the net horizontal
    displacement since the press; a left or right handle changes [shearY]
    alone, by 0.01 times the net vertical displacement.  Center, radii and
    rotation stay, and the box stays centered on the anchor. *)
Theorem shear_drag_net_displacement (s : State) (mx my : R) (button : Z)
    (h : Handle) (moves : list (R * R)) :
  hasEllipse s = true -> showBoundingBox s = true -> editMode s = ResizeShear ->
  button <> 2%Z ->
  findHandleHit (getHandlesFromBox (getEllipseBoundingBox (ellipseData s)))
                mx my 6 = Some h ->
  includes (role h) "middle" = true ->
  let e := ellipseData s in
  let pressed := onMouseDown s mx my button in
  let moved := run pressed (moveEvents moves) in
  let e' := ellipseData moved in
  let box' := getEllipseBoundingBox e' in
  let dx := pt_x (lastMove moves (mkPoint mx my)) - mx in
  let dy := pt_y (lastMove moves (mkPoint mx my)) - my in
  activeAnchor moved = Some (mkAnchor (centerX e) (centerY e) None) /\
  (shearX e', shearY e') =
  (if String.eqb (role h) "top-middle" || String.eqb (role h) "bottom-middle"
   then (shearX e + dx * 0.01, shearY e)
   else (shearX e, shearY e + dy * 0.01)) /\
  centerX e' = centerX e /\ centerY e' = centerY e /\
  radiusX e' = radiusX e /\ radiusY e' = radiusY e /\
  rotation e' = rotation e /\
  box_x box' + width box' / 2 = centerX e /\
  box_y box' + height box' / 2 = centerY e.
Proof.
  intros Hhas Hshow Hmode Hb Hhit Hmid. cbv zeta.
  rewrite (onMouseDown_hit s mx my button h Hb Hhas Hshow Hhit).
  rewrite Hmode, Hmid.
  set (pressed := mkState _ _ _ _ _ _ _ _ _).
  assert (Hp : shearing h pressed).
  { unfold pressed, shearing. cbn [hasEllipse isDragging dragHandle editMode].
    repeat split; assumption. }
  destruct (shearing_moves h moves pressed Hp) as (_ & _ & He & Ha & _).
  destruct (getEllipseBoundingBox_center (ellipseData (run pressed (moveEvents moves))))
    as (Hcx & Hcy).
  rewrite Hcx, Hcy, He, Ha. unfold pressed, shearedBy.
  fold (shearsAlongX h).
  destruct s as [dr [cx cy rx ry rot sx sy ah] has sh m dg dh lp an].
  cbn [activeAnchor ellipseData lastMousePos set_activeHandle
       centerX centerY radiusX radiusY rotation shearX shearY pt_x pt_y].
  destruct (shearsAlongX h);
    cbn [set_shearX set_shearY centerX centerY radiusX radiusY rotation
         shearX shearY];
    repeat split.
Qed.

Lemma scenario_hit_top_middle :
  findHandleHit
    (getHandlesFromBox (getEllipseBoundingBox (ellipseData scenarioState)))
    100 70 6 = Some (mkHandle (50 + 100 / 2) 70 "top-middle").
Proof.
  cbn [scenarioState ellipseData]. rewrite scenario_box.
  unfold findHandleHit, getHandlesFromBox. cbv zeta.
  cbn [find box_x box_y width height h_x h_y].
  decide_cmp. reflexivity.
Qed.

Lemma shear_drag_net_displacement_witness :
  let moved := run (onMouseDown scenarioState 100 70 0)
                   (moveEvents [(130, 75); (90, 60); (120, 70)]) in
  (shearX (ellipseData moved), shearY (ellipseData moved))
  = (0 + (120 - 100) * 0.01, 0) /\
  centerX (ellipseData moved) = 100 /\ centerY (ellipseData moved) = 100.
Proof.
  pose proof (shear_drag_net_displacement scenarioState 100 70 0
                (mkHandle (50 + 100 / 2) 70 "top-middle")
                [(130, 75); (90, 60); (120, 70)]
                eq_refl eq_refl eq_refl) as H.
  cbv zeta in H.
  destruct H as (_ & Hsh & Hcx & Hcy & _).
  - discriminate.
  - exact scenario_hit_top_middle.
  - reflexivity.
  - cbv zeta. repeat split; assumption.
Defined.

(** ** Presses inside the box *)

(** A primary press inside the visible box that hits no handle. *)
Lemma onMouseDown_toggle s mx my button :
  button <> 2%Z -> hasEllipse s = true -> showBoundingBox s = true ->
  findHandleHit (getHandlesFromBox (getEllipseBoundingBox (ellipseData s)))
                mx my 6 = None ->
  isPointInBox mx my (getEllipseBoundingBox (ellipseData s)) = true ->
  onMouseDown s mx my button =
  mkState (isDrawing s) (ellipseData s) true true
          (match editMode s with ResizeShear => Rotate | Rotate => ResizeShear end)
          (isDragging s) (dragHandle s) (mkPoint mx my) (activeAnchor s).
Proof.
  intros Hb Hhas Hshow Hhit Hin. apply Z.eqb_neq in Hb.
  destruct s as [dr e has sh m dg dh lp an]. state_fields. subst has sh.
  unfold onMouseDown. cbv zeta. unfold_setters. rewrite Hb. cbn [negb].
  rewrite Hhit, Hin. unfold_setters. reflexivity.
Qed.

(** X16.  A primary press inside the visible box and off the handles flips
    the edit mode and changes nothing else but the recorded pointer
    position; a second such press at the same place flips it back. *)
Theorem edit_mode_toggle (s : State) (mx my : R) (button : Z) :
  button <> 2%Z -> hasEllipse s = true -> showBoundingBox s = true ->
  findHandleHit (getHandlesFromBox (getEllipseBoundingBox (ellipseData s)))
                mx my 6 = None ->
  isPointInBox mx my (getEllipseBoundingBox (ellipseData s)) = true ->
  onMouseDown s mx my button =
  set_editMode
    (match editMode s with ResizeShear => Rotate | Rotate => ResizeShear end)
    (set_lastMousePos (mkPoint mx my) s) /\
  onMouseDown (onMouseDown s mx my button) mx my button =
  set_lastMousePos (mkPoint mx my) s.
Proof.
  intros Hb Hhas Hshow Hhit Hin.
  rewrite (onMouseDown_toggle s mx my button Hb Hhas Hshow Hhit Hin).
  split.
  - destruct s as [dr e has sh m dg dh lp an]. state_fields. subst has sh.
    reflexivity.
  - rewrite onMouseDown_toggle; try assumption; try reflexivity.
    destruct s as [dr e has sh m dg dh lp an]. state_fields. subst has sh.
    destruct m; reflexivity.
Qed.

Lemma scenario_miss h :
  findHandleHit (getHandlesFromBox (getEllipseBoundingBox (scenarioEllipse h)))
                100 100 6 = None.
Proof.
  rewrite scenario_box. unfold findHandleHit, getHandlesFromBox. cbv zeta.
  cbn [find box_x box_y width height h_x h_y].
  decide_cmp. reflexivity.
Qed.

Lemma scenario_inside_box h :
  isPointInBox 100 100 (getEllipseBoundingBox (scenarioEllipse h)) = true.
Proof.
  rewrite scenario_box. unfold isPointInBox, Rgeb.
  cbn [box_x box_y width height]. decide_cmp. reflexivity.
Qed.

Lemma edit_mode_toggle_witness :
  onMouseDown scenarioState 100 100 0 =
  set_editMode Rotate (set_lastMousePos (mkPoint 100 100) scenarioState) /\
  onMouseDown (onMouseDown scenarioState 100 100 0) 100 100 0 =
  set_lastMousePos (mkPoint 100 100) scenarioState.
Proof.
  apply (edit_mode_toggle scenarioState 100 100 0).
  - discriminate.
  - reflexivity.
  - reflexivity.
  - exact (scenario_miss None).
  - exact (scenario_inside_box None).
Defined.

(** ** A resize against an anchor without a role *)

Lemma flippedDrag_reachable : Reachable flippedDrag.
Proof.
  exists ([MouseDown 100 100 0; MouseMove 150 130; MouseDown 150 130 0]
          ++ [MouseDown 100 100 0; MouseDown 150 130 0; MouseDown 100 100 0]).
  rewrite run_app, scenario_created. cbn [run fold_left step].
  rewrite (onMouseDown_toggle scenarioState 100 100 0)
    by (discriminate || reflexivity || apply scenario_miss
        || apply scenario_inside_box).
  cbn [scenarioState isDrawing ellipseData editMode isDragging dragHandle
       activeAnchor].
  rewrite (onMouseDown_hit _ 150 130 0 scenarioHandle)
    by (discriminate || reflexivity || exact scenario_hit).
  cbn [isDrawing ellipseData editMode scenarioEllipse set_activeHandle
       centerX centerY radiusX radiusY rotation shearX shearY].
  fold (scenarioEllipse (Some scenarioHandle)).
  rewrite onMouseDown_toggle
    by (discriminate || reflexivity || apply scenario_miss
        || apply scenario_inside_box).
  reflexivity.
Qed.

(** X17.  When a corner handle is dragged in resize-shear mode against an
    anchor that carries no role, a move completes normally and puts the
    center of the ellipse at (0,0).  Such a state is reachable: press a
    corner in rotate mode, then, before any release, press inside the box. *)
Theorem roleless_anchor_resize_jumps_to_origin (s : State) (mx my : R)
    (h : Handle) (a : Anchor) :
  hasEllipse s = true -> isDragging s = true -> dragHandle s = Some h ->
  editMode s = ResizeShear -> includes (role h) "middle" = false ->
  activeAnchor s = Some a -> a_role a = None ->
  fst (onMouseMove s mx my) = Normal /\
  centerX (ellipseData (step s (MouseMove mx my))) = 0 /\
  centerY (ellipseData (step s (MouseMove mx my))) = 0.
Proof.
  intros Hhas Hdrag Hh Hmode Hmid Ha Hrole. cbn [step].
  rewrite (onMouseMove_corner s mx my h a Hhas Hdrag Hh Hmode Hmid Ha).
  cbn [fst snd]. unfold set_lastMousePos, set_ellipseData. cbn [ellipseData].
  unfold resizedEllipse. cbv zeta. rewrite Hrole.
  unfold computeEllipseCenterForBoxTopLeft. cbv zeta.
  cbn [fst snd centerX centerY]. repeat split.
Qed.

Lemma roleless_anchor_resize_jumps_to_origin_witness :
  Reachable flippedDrag /\
  fst (onMouseMove flippedDrag 101 100) = Normal /\
  centerX (ellipseData (step flippedDrag (MouseMove 101 100))) = 0 /\
  centerY (ellipseData (step flippedDrag (MouseMove 101 100))) = 0.
Proof.
  split; [exact flippedDrag_reachable|].
  apply (roleless_anchor_resize_jumps_to_origin flippedDrag 101 100 scenarioHandle
           (mkAnchor 100 100 None)); reflexivity.
Defined.

(** ** Creation *)

Lemma creating_moves cx cy s0 moves : forall s,
  creating cx cy s0 s ->
  radiusX (ellipseData s) = Rabs (cx - cx) ->
  radiusY (ellipseData s) = Rabs (cy - cy) ->
  let s' := run s (moveEvents moves) in
  creating cx cy s0 s' /\
  radiusX (ellipseData s') = Rabs (pt_x (lastMove moves (mkPoint cx cy)) - cx) /\
  radiusY (ellipseData s') = Rabs (pt_y (lastMove moves (mkPoint cx cy)) - cy).
Proof.
  assert (Hgen : forall moves s px py,
            creating cx cy s0 s ->
            radiusX (ellipseData s) = Rabs (px - cx) ->
            radiusY (ellipseData s) = Rabs (py - cy) ->
            creating cx cy s0 (run s (moveEvents moves)) /\
            radiusX (ellipseData (run s (moveEvents moves)))
            = Rabs (pt_x (lastMove moves (mkPoint px py)) - cx) /\
            radiusY (ellipseData (run s (moveEvents moves)))
            = Rabs (pt_y (lastMove moves (mkPoint px py)) - cy)).
  { clear moves. induction moves as [|[mx my] moves IH]; intros s px py Hs Hrx Hry.
    - cbn [moveEvents map run fold_left]. unfold lastMove. cbn [last fst snd pt_x pt_y].
      auto.
    - cbn [moveEvents map run fold_left fst snd step].
      fold (moveEvents moves).
      destruct Hs as (Hhas & Hdr & Hcx & Hcy & Hrot & Hsx & Hsy).
      rewrite (onMouseMove_creating s mx my Hhas Hdr). cbn [snd].
      rewrite lastMove_cons. cbn [fst snd].
      apply IH.
      + destruct s as [dr [ex ey rx ry rot sx sy ah] has sh m dg dh lp an].
        unfold creating in *. state_fields. unfold_setters. auto 10.
      + destruct s as [dr [ex ey rx ry rot sx sy ah] has sh m dg dh lp an].
        state_fields. unfold_setters. subst ex. reflexivity.
      + destruct s as [dr [ex ey rx ry rot sx sy ah] has sh m dg dh lp an].
        state_fields. unfold_setters. subst ey. reflexivity. }
  intros s Hs Hrx Hry. cbv zeta. apply Hgen; assumption.
Qed.

(** X18.  Creation: a primary press, any pointer moves, a primary press.
    The shape is finalized around the first press with the box shown.  Its
    radii are the distances, along x and along y, from the first press to
    the last move, whatever the moves before; when there was no move, or the
    last move is back on the first press, both radii are 10. *)
Theorem creation_radii (s : State) (cx cy mx my : R) (b b' : Z)
    (moves : list (R * R)) :
  hasEllipse s = false -> isDrawing s = false -> b <> 2%Z -> b' <> 2%Z ->
  let s' := run s ([MouseDown cx cy b] ++ moveEvents moves ++ [MouseDown mx my b']) in
  let rx := Rabs (pt_x (lastMove moves (mkPoint cx cy)) - cx) in
  let ry := Rabs (pt_y (lastMove moves (mkPoint cx cy)) - cy) in
  hasEllipse s' = true /\ isDrawing s' = false /\ showBoundingBox s' = true /\
  centerX (ellipseData s') = cx /\ centerY (ellipseData s') = cy /\
  (radiusX (ellipseData s'), radiusY (ellipseData s')) =
  (if Reqb rx 0 && Reqb ry 0 then (10, 10) else (rx, ry)).
Proof.
  intros Hhas Hdr Hb Hb'. cbv zeta.
  rewrite !run_app.
  change (run s [MouseDown cx cy b]) with (onMouseDown s cx cy b).
  rewrite (onMouseDown_first s cx cy b Hb Hhas Hdr).
  set (s1 := mkState _ _ _ _ _ _ _ _ _).
  assert (H1 : creating cx cy s s1).
  { unfold s1, creating. destruct s as [dr [ex ey rx ry rot sx sy ah] has sh m dg dh lp an].
    unfold_setters. repeat split. }
  assert (Hrx : radiusX (ellipseData s1) = Rabs (cx - cx)).
  { unfold s1. destruct s as [dr [ex ey rx ry rot sx sy ah] has sh m dg dh lp an].
    unfold_setters. replace (cx - cx) with 0 by ring. symmetry. apply Rabs_R0. }
  assert (Hry : radiusY (ellipseData s1) = Rabs (cy - cy)).
  { unfold s1. destruct s as [dr [ex ey rx ry rot sx sy ah] has sh m dg dh lp an].
    unfold_setters. replace (cy - cy) with 0 by ring. symmetry. apply Rabs_R0. }
  destruct (creating_moves cx cy s moves s1 H1 Hrx Hry)
    as ((Hhas2 & Hdr2 & Hcx & Hcy & _) & Hrx2 & Hry2).
  set (s2 := run s1 (moveEvents moves)) in *.
  change (run s2 [MouseDown mx my b']) with (onMouseDown s2 mx my b').
  rewrite (onMouseDown_second s2 mx my b' Hb' Hhas2 Hdr2).
  cbn [hasEllipse isDrawing showBoundingBox ellipseData].
  rewrite Hrx2, Hry2.
  destruct (Reqb _ 0 && Reqb _ 0);
    unfold set_radii; cbn [centerX centerY radiusX radiusY];
    rewrite ?Hrx2, ?Hry2; repeat split; assumption.
Qed.

Lemma creation_radii_witness :
  let s' := run initialState
              ([MouseDown 100 100 0]
               ++ moveEvents [(150, 130); (100, 100)] ++ [MouseDown 120 90 0]) in
  hasEllipse s' = true /\ centerX (ellipseData s') = 100 /\
  (radiusX (ellipseData s'), radiusY (ellipseData s')) = (10, 10).
Proof.
  pose proof (creation_radii initialState 100 100 120 90 0 0
                [(150, 130); (100, 100)] eq_refl eq_refl) as H.
  cbv zeta in H. destruct H as (Hhas & _ & _ & Hcx & _ & Hr).
  - discriminate.
  - discriminate.
  - cbv zeta. split; [exact Hhas|]. split; [exact Hcx|].
    rewrite Hr. unfold lastMove. cbn [last fst snd pt_x pt_y].
    replace (100 - 100) with 0 by lra. rewrite Rabs_R0.
    replace (Reqb 0 0) with true by (symmetry; apply Reqb_true; reflexivity).
    reflexivity.
Defined.

(** ** The modes of the reachable states *)

Lemma modeInv_step s ev : modeInv s -> modeInv (step s ev).
Proof.
  destruct s as [dr e has sh m dg dh lp an].
  unfold modeInv. state_fields. intros (Hdr & Hsh).
  destruct ev as [mx my button | mx my | |]; cbn [step].
  - unfold onMouseDown. cbv zeta. unfold_setters.
    destruct dr, has, sh; cbn [negb];
      try (specialize (Hdr eq_refl); discriminate);
      try (specialize (Hsh eq_refl); discriminate);
      split_cases; unfold_setters; split; intros Hx; congruence.
  - unfold onMouseMove. cbv zeta. unfold_setters.
    destruct dr, has, sh; cbn [negb andb];
      try (specialize (Hdr eq_refl); discriminate);
      try (specialize (Hsh eq_refl); discriminate);
      split_cases; cbn [snd]; unfold_setters; split; intros Hx; congruence.
  - unfold onMouseUp. unfold_setters. auto.
  - unfold onContextMenu. unfold_setters. split; [auto | discriminate].
Qed.

Lemma hasEllipse_step s ev : hasEllipse s = true -> hasEllipse (step s ev) = true.
Proof.
  destruct s as [dr e has sh m dg dh lp an]. state_fields. intros ->.
  destruct ev as [mx my button | mx my | |]; cbn [step].
  - unfold onMouseDown. cbv zeta. unfold_setters. cbn [negb].
    split_cases; unfold_setters; reflexivity.
  - unfold onMouseMove. cbv zeta. unfold_setters. cbn [negb andb].
    split_cases; cbn [snd]; unfold_setters; reflexivity.
  - reflexivity.
  - reflexivity.
Qed.

Lemma Reachable_modeInv s : Reachable s -> modeInv s.
Proof.
  intros (evs & ->). apply (run_invariant modeInv modeInv_step).
  split; cbn; intros H; discriminate.
Qed.

(** X19.  In every reachable state: the shape is not both being created and
    finalized; the box is shown only for a finalized shape; a drag is in
    progress only on a finalized shape and then [dragHandle] and
    [activeAnchor] are both set; and no pointer move ends in a [TypeError].
    A finalized shape stays finalized under every sequence of events. *)
Theorem reachable_modes :
  (forall s, Reachable s ->
     (isDrawing s = true -> hasEllipse s = false) /\
     (showBoundingBox s = true -> hasEllipse s = true) /\
     (isDragging s = true ->
      hasEllipse s = true /\ dragHandle s <> None /\ activeAnchor s <> None) /\
     (forall mx my, fst (onMouseMove s mx my) = Normal)) /\
  (forall s evs, hasEllipse s = true -> hasEllipse (run s evs) = true).
Proof.
  split.
  - intros s Hs.
    destruct (Reachable_modeInv s Hs) as (Hdr & Hsh).
    destruct (Reachable_dragInv s Hs) as (_ & Hon).
    split; [exact Hdr|]. split; [exact Hsh|]. split.
    + intros Hd. destruct (Hon Hd) as (H1 & H2 & H3 & _). auto.
    + intros mx my. apply Reachable_no_throw, Hs.
  - intros s evs Hhas.
    apply (run_invariant (fun s' => hasEllipse s' = true) hasEllipse_step), Hhas.
Qed.

(** ** Drawing in the reachable states *)

(** X20.  In every reachable state [drawAll] ends normally; it draws the
    anchor cross exactly when a drag is in progress, and the handles exactly
    when the box is shown and no drag is in progress. *)
Theorem drawAll_reachable (s : State) :
  Reachable s ->
  fst (drawAll s) = Normal /\
  ((exists x y size, In (drawAnchorCross x y size) (snd (drawAll s)))
   <-> isDragging s = true) /\
  ((exists handles m, In (drawHandles handles m) (snd (drawAll s)))
   <-> showBoundingBox s = true /\ isDragging s = false).
Proof.
  intros Hs.
  destruct (Reachable_modeInv s Hs) as (Hdr & Hsh).
  destruct (Reachable_dragInv s Hs) as (Hoff & Hon).
  destruct s as [dr [cx cy rx ry rot sx sy ah] has sh m dg dh lp an].
  state_fields. unfold drawAll. cbv zeta. unfold_setters.
  destruct dg.
  - destruct (Hon eq_refl) as (-> & Hdh & Han & ->).
    destruct an as [a|]; [|congruence]. destruct dh as [h|]; [|congruence].
    cbn [negb andb fst snd].
    split; [reflexivity|]. split.
    + split; [reflexivity|]. intros _.
      eexists _, _, _. apply in_or_app. right. left. reflexivity.
    + split.
      * intros (hs & m' & Hin). destruct sh; cbn [negb andb] in Hin; in_calls.
      * intros (_ & Hf). discriminate.
  - destruct (Hoff eq_refl) as (-> & ->).
    destruct dr, has, sh; cbn [negb andb fst snd app];
      try (specialize (Hdr eq_refl); discriminate);
      try (specialize (Hsh eq_refl); discriminate);
      (split; [reflexivity|]); split; split;
      try (intros (x & y & z & Hin); in_calls);
      try (intros (x & y & Hin); in_calls);
      try discriminate; try (intros (Hf & _); discriminate);
      try (intros _; split; reflexivity);
      try (intros _; eexists _, _; cbn [In]; eauto 6);
      try (split; reflexivity).
Qed.

Lemma drawAll_reachable_witness :
  fst (drawAll scenarioPressed) = Normal /\
  ((exists x y size, In (drawAnchorCross x y size) (snd (drawAll scenarioPressed)))
   <-> isDragging scenarioPressed = true) /\
  ((exists handles m, In (drawHandles handles m) (snd (drawAll scenarioPressed)))
   <-> showBoundingBox scenarioPressed = true /\ isDragging scenarioPressed = false).
Proof.
  apply (drawAll_reachable scenarioPressed).
  exists ([MouseDown 100 100 0; MouseMove 150 130; MouseDown 150 130 0]
          ++ [MouseDown 150 130 0]).
  rewrite run_app, scenario_created. cbn [run fold_left step].
  symmetry. exact scenario_pressed.
Defined.

Lemma middle_of_handles box h :
  In h (getHandlesFromBox box) -> includes (role h) "middle" = true ->
  isMiddleRole (role h).
Proof.
  unfold getHandlesFromBox, isMiddleRole. cbv zeta.
  intros Hin Hmid. cbn [In] in Hin.
  repeat (destruct Hin as [<- | Hin]); cbn [role] in *;
    try (vm_compute in Hmid; discriminate); auto.
  destruct Hin.
Qed.

(** For a mid-side role the fallback of [getOppositeCornerScreenCoord] on the
    sampled box is the center of the ellipse. *)
Lemma getOppositeCornerScreenCoord_middle e r :
  isMiddleRole r ->
  getOppositeCornerScreenCoord (getEllipseBoundingBox e) r
  = mkAnchor (centerX e) (centerY e) None.
Proof.
  intros Hr. destruct (getEllipseBoundingBox_center e) as (Hx & Hy).
  revert Hx Hy. generalize (getEllipseBoundingBox e). intros box Hx Hy.
  destruct Hr as [-> | [-> | [-> | ->]]];
    cbn [getOppositeCornerScreenCoord String.eqb Ascii.eqb Bool.eqb];
    rewrite Hx, Hy; reflexivity.
Qed.

Lemma onMouseMove_activeHandle s mx my :
  activeHandle (ellipseData (snd (onMouseMove s mx my)))
  = activeHandle (ellipseData s).
Proof.
  destruct s as [dr [cx cy rx ry rot sx sy ah] has sh m dg dh lp an].
  unfold onMouseMove. cbv zeta. unfold_setters.
  split_cases; cbn [snd]; unfold_setters; reflexivity.
Qed.

Lemma moves_activeHandle moves : forall s,
  activeHandle (ellipseData (run s (moveEvents moves)))
  = activeHandle (ellipseData s).
Proof.
  induction moves as [|[mx my] moves IH]; intros s; [reflexivity|].
  cbn [moveEvents map run fold_left fst snd step]. fold (moveEvents moves).
  fold (run (snd (onMouseMove s mx my)) (moveEvents moves)).
  rewrite IH. apply onMouseMove_activeHandle.
Qed.

(** X21.  A handle is pressed in resize-shear mode with the box shown, then
    the pointer moves.  After every move [drawAll] ends normally and its last
    call draws the anchor cross on the stored anchor: the opposite corner
    for a corner handle, the center for a mid-side handle. *)
Theorem anchor_cross_on_anchor (s : State) (mx my : R) (button : Z) (h : Handle)
    (moves : list (R * R)) :
  hasEllipse s = true -> showBoundingBox s = true -> editMode s = ResizeShear ->
  button <> 2%Z ->
  findHandleHit (getHandlesFromBox (getEllipseBoundingBox (ellipseData s)))
                mx my 6 = Some h ->
  let moved := run (onMouseDown s mx my button) (moveEvents moves) in
  exists a calls,
    activeAnchor moved = Some a /\
    (a = if includes (role h) "middle"
         then mkAnchor (centerX (ellipseData s)) (centerY (ellipseData s)) None
         else getOppositeCornerScreenCoord
                (getEllipseBoundingBox (ellipseData s)) (role h)) /\
    drawAll moved = (Normal, calls ++ [drawAnchorCross (a_x a) (a_y a) 10]).
Proof.
  intros Hhas Hshow Hmode Hb Hhit. cbv zeta.
  pose proof (findHandleHit_In _ _ _ _ _ Hhit) as Hin.
  pose proof (moves_activeHandle moves (onMouseDown s mx my button)) as Hah.
  rewrite (onMouseDown_hit s mx my button h Hb Hhas Hshow Hhit) in *.
  rewrite Hmode in *. cbn [ellipseData] in Hah.
  unfold set_activeHandle in Hah at 2. cbn [activeHandle] in Hah.
  set (pressed := mkState _ _ _ _ _ _ _ _ _) in *.
  set (moved := run pressed (moveEvents moves)) in *.
  destruct (includes (role h) "middle") eqn:Hmid.
  - (* a mid-side handle *)
    assert (Hp : shearing h pressed).
    { unfold pressed, shearing. cbn [hasEllipse isDragging dragHandle editMode].
      repeat split; assumption. }
    destruct (shearing_moves h moves pressed Hp)
      as ((Hhas' & Hdrag' & _) & _ & He & Ha & Hsh).
    fold moved in Hhas', Hdrag', He, Ha, Hsh.
    assert (Hc : centerX (ellipseData moved) = centerX (ellipseData s) /\
                 centerY (ellipseData moved) = centerY (ellipseData s)).
    { rewrite He. unfold pressed, shearedBy.
      destruct s as [dr [cx cy rx ry rot sx sy ah] has sh m dg dh lp an].
      destruct (shearsAlongX h); repeat split. }
    destruct Hc as (Hcx & Hcy).
    unfold drawAll. cbv zeta.
    rewrite Hhas', Hdrag', Ha, Hah, Hsh. cbn [negb andb].
    unfold pressed at 1 2. cbn [activeAnchor showBoundingBox].
    rewrite (getOppositeCornerScreenCoord_middle _ _
               (middle_of_handles _ _ Hin Hmid)).
    cbn [a_x a_y]. rewrite Hcx, Hcy.
    eexists _, _. split; [reflexivity|]. split; reflexivity.
  - (* a corner handle *)
    assert (Hr : isCornerRole (role h))
      by (apply (corner_of_handles _ _ Hin Hmid)).
    set (a := getOppositeCornerScreenCoord
                (getEllipseBoundingBox (ellipseData s)) (role h)) in *.
    assert (Hrole : a_role a = Some (oppositeRole (role h))).
    { unfold a. rewrite getOppositeCornerScreenCoord_corner by exact Hr.
      reflexivity. }
    assert (Hp : cornerDrag (role h) a pressed).
    { unfold pressed, cornerDrag.
      cbn [hasEllipse isDragging dragHandle editMode activeAnchor].
      repeat split; eauto. }
    assert (Hbox : getOppositeCornerScreenCoord
                     (getEllipseBoundingBox (ellipseData pressed)) (role h) = a).
    { unfold pressed. cbn [ellipseData].
      rewrite getEllipseBoundingBox_activeHandle. reflexivity. }
    destruct (cornerDrag_moves (role h) a Hr Hrole moves pressed Hp Hbox)
      as ((Hhas' & Hdrag' & _ & _ & Ha) & Hbox').
    fold moved in Hhas', Hdrag', Ha, Hbox'.
    unfold drawAll. cbv zeta.
    rewrite Hhas', Hdrag', Ha, Hah. cbn [negb andb].
    rewrite Hbox'.
    eexists _, _. split; [reflexivity|]. split; reflexivity.
Qed.

Lemma anchor_cross_on_anchor_witness :
  let moved := run (onMouseDown scenarioState 150 130 0)
                   (moveEvents [(170, 130); (160, 150)]) in
  exists a calls,
    activeAnchor moved = Some a /\
    (a = if includes "bottom-right" "middle"
         then mkAnchor 100 100 None
         else getOppositeCornerScreenCoord
                (getEllipseBoundingBox (scenarioEllipse None)) "bottom-right") /\
    drawAll moved = (Normal, calls ++ [drawAnchorCross (a_x a) (a_y a) 10]).
Proof.
  apply (anchor_cross_on_anchor scenarioState 150 130 0 scenarioHandle
           [(170, 130); (160, 150)]).
  - reflexivity.
  - reflexivity.
  - reflexivity.
  - discriminate.
  - exact scenario_hit.
Defined.

(** ** Every tenth call of the logger prints *)

Lemma myLogs_from (messages : list string) : forall c, (c < 10)%nat ->
  (fst (myLogs c messages) < 10)%nat /\
  (fst (myLogs c messages) + 10 * List.length (snd (myLogs c messages))
   = c + List.length messages)%nat /\
  forall k, (k < List.length (snd (myLogs c messages)))%nat ->
    nth_error (snd (myLogs c messages)) k = nth_error messages (10 * k + 9 - c).
Proof.
  induction messages as [|m ms IH]; intros c Hc.
  - cbn. repeat split; lia.
  - cbn [myLogs]. unfold myLog.
    destruct (Nat.eq_dec c 9) as [-> | Hne].
    + assert (Hmod : (10 mod 10 =? 0)%nat = true) by reflexivity.
      rewrite Hmod.
      destruct (IH 0%nat ltac:(lia)) as (H1 & H2 & H3).
      destruct (myLogs 0 ms) as [c' out]. cbn [fst snd app List.length] in *.
      repeat split; try lia.
      intros [|k] Hk.
      * reflexivity.
      * cbn [nth_error]. rewrite H3 by lia.
        replace (10 * S k + 9 - 9)%nat with (S (10 * k + 9 - 0))%nat by lia.
        reflexivity.
    + assert (Hmod : ((S c) mod 10 =? 0)%nat = false).
      { apply Nat.eqb_neq. rewrite Nat.mod_small by lia. lia. }
      rewrite Hmod.
      destruct (IH (S c) ltac:(lia)) as (H1 & H2 & H3).
      destruct (myLogs (S c) ms) as [c' out]. cbn [fst snd app List.length] in *.
      repeat split; try lia.
      intros k Hk. rewrite H3 by exact Hk.
      replace (10 * k + 9 - c)%nat with (S (10 * k + 9 - S c))%nat by lia.
      reflexivity.
Qed.

(** X22.  From a fresh logger, after [n] calls the captured count is
    [n mod 10], the console holds [n / 10] lines, and its [k]-th line is the
    message of call number [10 * (k + 1)]: every tenth call prints. *)
Theorem myLog_prints_every_tenth (messages : list string) :
  let n := List.length messages in
  let '(callCount, printed) := myLogs 0 messages in
  callCount = (n mod 10)%nat /\
  List.length printed = (n / 10)%nat /\
  forall k, (k < n / 10)%nat ->
    nth_error printed k = nth_error messages (10 * (k + 1) - 1).
Proof.
  cbv zeta. destruct (myLogs_from messages 0%nat ltac:(lia)) as (H1 & H2 & H3).
  destruct (myLogs 0 messages) as [c out]. cbn [fst snd] in *.
  assert (Hn : List.length messages = (10 * List.length out + c)%nat) by lia.
  assert (Hdiv : (List.length messages / 10 = List.length out)%nat).
  { rewrite Hn. rewrite Nat.mul_comm, Nat.div_add_l by lia.
    rewrite Nat.div_small by lia. lia. }
  assert (Hmod : (List.length messages mod 10 = c)%nat).
  { rewrite Hn. rewrite Nat.add_comm, Nat.mul_comm, Nat.Div0.mod_add.
    apply Nat.mod_small. lia. }
  split; [symmetry; exact Hmod|]. split; [symmetry; exact Hdiv|].
  intros k Hk. rewrite H3 by lia. f_equal. lia.
Qed.

(** ** How far a dragged corner travels *)

(** X23.  On a shape without rotation or shear, when a corner handle is
    pressed in resize-shear mode and the pointer then moves by [(dx, dy)]
    without bringing a radius under 5, the dragged corner of the box moves by
    [(2 * dx, 2 * dy)]: twice the displacement of the pointer. *)
Theorem dragged_corner_moves_twice (s : State) (mx my mx' my' : R) (button : Z)
    (h : Handle) :
  hasEllipse s = true -> showBoundingBox s = true -> editMode s = ResizeShear ->
  button <> 2%Z ->
  findHandleHit (getHandlesFromBox (getEllipseBoundingBox (ellipseData s)))
                mx my 6 = Some h ->
  includes (role h) "middle" = false ->
  rotation (ellipseData s) = 0 -> shearX (ellipseData s) = 0 ->
  shearY (ellipseData s) = 0 ->
  0 <= radiusX (ellipseData s) -> 0 <= radiusY (ellipseData s) ->
  let dx := mx' - mx in
  let dy := my' - my in
  5 <= radiusX (ellipseData s) + (if includes (role h) "left" then -1 else 1) * dx ->
  5 <= radiusY (ellipseData s) + (if includes (role h) "top" then -1 else 1) * dy ->
  let moved := step (onMouseDown s mx my button) (MouseMove mx' my') in
  let before := cornerOfBox (getEllipseBoundingBox (ellipseData s)) (role h) in
  let after := cornerOfBox (getEllipseBoundingBox (ellipseData moved)) (role h) in
  after = (fst before + 2 * dx, snd before + 2 * dy).
Proof.
  intros Hhas Hshow Hmode Hb Hhit Hmid Hrot Hsx Hsy Hrx Hry dx dy Hx Hy.
  cbv zeta.
  assert (Hr : isCornerRole (role h)).
  { apply (corner_of_handles (getEllipseBoundingBox (ellipseData s))); auto.
    apply findHandleHit_In in Hhit. exact Hhit. }
  rewrite (onMouseDown_hit s mx my button h Hb Hhas Hshow Hhit).
  rewrite Hmode, Hmid.
  destruct s as [dr [cx cy rx ry rot sx sy ah] has sh m dg dh lp an].
  state_fields. subst rot sx sy has sh m. unfold set_activeHandle.
  cbn [centerX centerY radiusX radiusY rotation shearX shearY].
  set (e := mkEllipse cx cy rx ry 0 0 0 ah) in *.
  assert (Hbox : getEllipseBoundingBox e
                 = mkBox (cx - rx) (cy - ry) (cx + rx - (cx - rx))
                         (cy + ry - (cy - ry))).
  { unfold e. rewrite getEllipseBoundingBox_plain; try reflexivity; assumption. }
  rewrite Hbox in *.
  set (a := getOppositeCornerScreenCoord _ _).
  set (pressed := mkState _ _ _ _ _ _ _ _ _).
  cbn [step].
  rewrite (onMouseMove_corner pressed mx' my' h a eq_refl eq_refl eq_refl eq_refl
             Hmid eq_refl).
  cbn [snd]. unfold set_lastMousePos, set_ellipseData. cbn [ellipseData].
  unfold resizedEllipse. cbv zeta.
  assert (Hrx' : resizedRadiusX pressed h mx'
                 = rx + (if includes (role h) "left" then -1 else 1) * dx).
  { unfold resizedRadiusX, pressed. cbn [ellipseData lastMousePos pt_x radiusX].
    apply Rmax_right. exact Hx. }
  assert (Hry' : resizedRadiusY pressed h my'
                 = ry + (if includes (role h) "top" then -1 else 1) * dy).
  { unfold resizedRadiusY, pressed. cbn [ellipseData lastMousePos pt_y radiusY].
    apply Rmax_right. exact Hy. }
  rewrite Hrx', Hry'.
  unfold pressed. cbn [ellipseData rotation shearX shearY activeHandle].
  assert (Ha : a_role a = Some (oppositeRole (role h))).
  { unfold a. rewrite getOppositeCornerScreenCoord_corner by exact Hr.
    reflexivity. }
  rewrite Ha.
  rewrite computeEllipseCenter_corner by (apply oppositeRole_corner, Hr).
  cbv zeta. cbn [fst snd].
  set (rx' := rx + _) in *. set (ry' := ry + _) in *.
  assert (Hbox0 : getEllipseBoundingBox (mkEllipse 0 0 rx' ry' 0 0 0 None)
                  = mkBox (0 - rx') (0 - ry') (0 + rx' - (0 - rx'))
                          (0 + ry' - (0 - ry'))).
  { rewrite getEllipseBoundingBox_plain;
      cbn [rotation shearX shearY radiusX radiusY centerX centerY];
      (reflexivity || lra). }
  rewrite Hbox0.
  match goal with |- context [getEllipseBoundingBox ?e1] =>
    rewrite (getEllipseBoundingBox_plain e1)
      by (cbn [rotation shearX shearY radiusX radiusY]; (reflexivity || lra))
  end.
  cbn [centerX centerY radiusX radiusY].
  unfold a. rewrite getOppositeCornerScreenCoord_corner by exact Hr.
  cbn [a_x a_y].
  subst rx' ry'. unfold dx, dy in *.
  clear a pressed Hrx' Hry' Ha Hbox Hbox0 Hhit e.
  destruct Hr as [Hr | [Hr | [Hr | Hr]]]; rewrite Hr in *;
    repeat match goal with
    | |- context [includes ?u ?v] =>
        let w := eval vm_compute in (includes u v) in
        change (includes u v) with w
    end;
    cbn [oppositeRole cornerOfBox String.eqb Ascii.eqb Bool.eqb
         box_x box_y width height fst snd];
    f_equal; ring.
Qed.

Lemma dragged_corner_moves_twice_witness :
  let moved := step (onMouseDown scenarioState 150 130 0) (MouseMove 170 130) in
  let before :=
    cornerOfBox (getEllipseBoundingBox (ellipseData scenarioState)) "bottom-right" in
  let after :=
    cornerOfBox (getEllipseBoundingBox (ellipseData moved)) "bottom-right" in
  after = (fst before + 2 * (170 - 150), snd before + 2 * (130 - 130)).
Proof.
  apply (dragged_corner_moves_twice scenarioState 150 130 170 130 0 scenarioHandle).
  - reflexivity.
  - reflexivity.
  - reflexivity.
  - discriminate.
  - exact scenario_hit.
  - reflexivity.
  - reflexivity.
  - reflexivity.
  - reflexivity.
  - cbn [scenarioState ellipseData scenarioEllipse radiusX]. lra.
  - cbn [scenarioState ellipseData scenarioEllipse radiusY]. lra.
  - cbn [scenarioState ellipseData scenarioEllipse radiusX].
    change (includes (role scenarioHandle) "left") with false. lra.
  - cbn [scenarioState ellipseData scenarioEllipse radiusY].
    change (includes (role scenarioHandle) "top") with false. lra.
Defined.
